(** * cloud-assist: the human-in-the-loop command agent

    A shallow embedding of [src/agent/src/utils.py], [prompts.py],
    [graph.py] and [server.py].  Python [str] values are [string]s (code
    points below 256), Python [int]s are [Z], dictionaries keyed by
    client or thread identifiers are [gmap]s.  The two collaborators the
    program calls out to, the language model and [subprocess.run], are
    oracles of an environment; every statement quantifies over them. *)

From Stdlib Require Import ZArith Ascii String List Bool Lia DecimalString.
From stdpp Require Import base gmap strings list fin_maps.

Open Scope string_scope.
Open Scope Z_scope.

(** ** Python string methods used by the program *)

Module PyStr.

(** [str.isspace] on one character, for code points below 256:
    TAB..CR, FS..US, SPACE, NEL and NBSP. *)
Definition isspace (c : ascii) : bool :=
  let n := N_of_ascii c in
  ((9 <=? n)%N && (n <=? 13)%N) || ((28 <=? n)%N && (n <=? 32)%N)
  || (n =? 133)%N || (n =? 160)%N.

(** [s.lstrip()] *)
Fixpoint lstrip (s : string) : string :=
  match s with
  | EmptyString => EmptyString
  | String c s' => if isspace c then lstrip s' else s
  end.

(** [s.rstrip()] *)
Fixpoint rstrip (s : string) : string :=
  match s with
  | EmptyString => EmptyString
  | String c s' =>
      match rstrip s' with
      | EmptyString => if isspace c then EmptyString else String c EmptyString
      | r => String c r
      end
  end.

(** [s.strip()] *)
Definition strip (s : string) : string := lstrip (rstrip s).

(** [s.startswith(p)] *)
Definition startswith (s p : string) : bool := String.prefix p s.

(** [s.endswith(p)] *)
Definition endswith (s p : string) : bool :=
  let n := String.length s in
  let m := String.length p in
  (m <=? n)%nat && String.eqb (String.substring (n - m) m s) p.

(** [s[:-k]] for a positive [k] *)
Definition drop_last (k : nat) (s : string) : string :=
  String.substring 0 (String.length s - k) s.

(** [s.split(sep)] for a one-character separator: never empty. *)
Fixpoint split (sep : ascii) (s : string) : list string :=
  match s with
  | EmptyString => [EmptyString]
  | String c s' =>
      if Ascii.eqb c sep then EmptyString :: split sep s'
      else match split sep s' with
           | h :: t => String c h :: t
           | [] => [String c EmptyString]
           end
  end.

(** [str(n)] for an [int] *)
Definition str_of_int (n : Z) : string := NilZero.string_of_int (Z.to_int n).

(** truthiness of a [str]: non-empty *)
Definition truthy (s : string) : bool :=
  match s with EmptyString => false | _ => true end.

Definition newline : ascii := "010"%char.

(** [c.lower()] on one character, for code points below 256: the ASCII
    capitals and the Latin-1 capitals (all of 192..222 but the
    multiplication sign) move up by 32. *)
Definition lower_char (c : ascii) : ascii :=
  let n := N_of_ascii c in
  if ((65 <=? n)%N && (n <=? 90)%N)
     || ((192 <=? n)%N && (n <=? 222)%N && negb (n =? 215)%N)
  then ascii_of_N (n + 32) else c.

(** [s.lower()] *)
Fixpoint lower (s : string) : string :=
  match s with
  | EmptyString => EmptyString
  | String c s' => String (lower_char c) (lower s')
  end.

End PyStr.

(** ** utils.py *)

Definition fence : string := "```".

(** [clean_command_output]: remove markdown code blocks from a generated
    command if present. *)
Definition clean_command_output (command : string) : string :=
  let command :=
    if PyStr.startswith command fence then
      let lines := PyStr.split PyStr.newline command in
      match lines with
      | _ :: l1 :: _ => l1
      | _ => command
      end
    else command in
  let command :=
    if PyStr.endswith command fence then PyStr.strip (PyStr.drop_last 3 command)
    else command in
  PyStr.strip command.

Definition nl : string := String PyStr.newline EmptyString.

(** What one call of [subprocess.run(command, shell=True,
    capture_output=True, text=True, timeout=timeout)] can do: return a
    completed process, raise [TimeoutExpired], or raise another
    [Exception] whose [str(e)] is recorded. *)
Inductive ProcResult : Type :=
| Completed (returncode : Z) (stdout stderr : string)
| TimeoutExpired
| Raised (str_e : string).

(** The partial dictionary a node returns: the keys it sets. *)
Record Update : Type := mkUpdate {
  u_messages : option (list (string * string));
  u_generated_command : option string;
  u_command_output : option string;
  u_command_error : option string;
  u_execution_approved : option bool;
  u_retry_count : option Z
}.

Definition no_update : Update := mkUpdate None None None None None None.

(** The dictionary [execute_shell_command] returns has exactly these keys. *)
Definition execution_result (out err : string) (approved : bool) : Update :=
  mkUpdate None None (Some out) (Some err) (Some approved) None.

(** [execute_shell_command(command, timeout=30)], given what
    [subprocess.run] did. *)
Definition execute_shell_command
    (run : string -> Z -> ProcResult) (command : string) (timeout : Z) : Update :=
  match run command timeout with
  | Completed returncode stdout stderr =>
      if returncode =? 0 then execution_result stdout "" true
      else execution_result stdout stderr true
  | TimeoutExpired =>
      execution_result ""
        ("Command timed out after " ++ PyStr.str_of_int timeout ++ " seconds") true
  | Raised str_e =>
      execution_result "" ("Error executing command: " ++ str_e) true
  end.

Definition default_timeout : Z := 30.

(** ** state.py *)

(** A chat message: its role and its content. *)
Definition Message : Type := (string * string)%type.
Definition SystemMessage (content : string) : Message := ("system", content).
Definition HumanMessage (content : string) : Message := ("human", content).
Definition AIMessage (content : string) : Message := ("ai", content).

Record AgentState : Type := mkState {
  messages : list Message;
  user_prompt : string;
  generated_command : string;
  command_output : string;
  command_error : string;
  execution_approved : bool;
  retry_count : Z
}.

(** Merging a node's return value into the state: [messages] is
    annotated with [operator.add], every other key is overwritten. *)
Definition apply_update (u : Update) (s : AgentState) : AgentState :=
  {| messages := match u_messages u with
                 | Some m => (messages s ++ m)%list
                 | None => messages s
                 end;
     user_prompt := user_prompt s;
     generated_command := default (generated_command s) (u_generated_command u);
     command_output := default (command_output s) (u_command_output u);
     command_error := default (command_error s) (u_command_error u);
     execution_approved := default (execution_approved s) (u_execution_approved u);
     retry_count := default (retry_count s) (u_retry_count u) |}.

(** The initial state both entry points build for a request. *)
Definition initial_state (prompt : string) : AgentState :=
  {| messages := []; user_prompt := prompt; generated_command := "";
     command_output := ""; command_error := ""; execution_approved := false;
     retry_count := 0 |}.

(** ** prompts.py *)

Definition dq : string := String "034"%char EmptyString.

Definition get_command_generation_prompt : Message :=
  SystemMessage
    (nl ++ "You are a command-line assistant. Your job is to generate shell commands based on user requests."
     ++ nl ++ "Generate ONLY the command, no explanations or additional text."
     ++ nl ++ "The command should be safe and appropriate for the user's request."
     ++ nl
     ++ nl ++ "Examples:"
     ++ nl ++ "- User: " ++ dq ++ "show all running docker containers" ++ dq
           ++ " -> Response: " ++ dq ++ "docker ps -a" ++ dq
     ++ nl ++ "- User: " ++ dq ++ "list all files in current directory" ++ dq
           ++ " -> Response: " ++ dq ++ "ls -la" ++ dq
     ++ nl ++ "- User: " ++ dq ++ "show system disk usage" ++ dq
           ++ " -> Response: " ++ dq ++ "df -h" ++ dq
     ++ nl
     ++ nl ++ "Generate a single, safe command for the following request:"
     ++ nl).

Definition get_retry_command_prompt
    (user_prompt previous_command error : string) (retry_count : Z) : Message :=
  SystemMessage
    (nl ++ "You are a command-line assistant. The previous command failed with an error."
     ++ nl ++ "Generate a different, alternative command to accomplish the same goal."
     ++ nl
     ++ nl ++ "Original request: " ++ user_prompt
     ++ nl ++ "Previous command that failed: " ++ previous_command
     ++ nl ++ "Error encountered: " ++ error
     ++ nl ++ "Retry attempt: " ++ PyStr.str_of_int retry_count ++ "/3"
     ++ nl
     ++ nl ++ "Generate ONLY a single alternative command, no explanations or additional text."
     ++ nl ++ "Make sure the new command is different from the previous one and addresses the error."
     ++ nl).

(** Values stored in an interrupt payload. *)
Inductive PyVal : Type :=
| VStr (s : string)
| VInt (n : Z)
| VOptions (opts : list (string * string)).

(** An interrupt payload: a dictionary, in insertion order. *)
Definition Payload : Type := list (string * PyVal).

Fixpoint payload_get (k : string) (d : Payload) : option PyVal :=
  match d with
  | [] => None
  | (k', v) :: d' => if String.eqb k k' then Some v else payload_get k d'
  end.

(** [k in d] *)
Definition payload_has (k : string) (d : Payload) : bool :=
  match payload_get k d with Some _ => true | None => false end.

(** [d.get(k, "")] read as a string *)
Definition payload_str (k : string) (d : Payload) : string :=
  match payload_get k d with Some (VStr s) => s | _ => "" end.

(** [d.get(k, 0)] read as an integer *)
Definition payload_int (k : string) (d : Payload) : Z :=
  match payload_get k d with Some (VInt n) => n | _ => 0 end.

(** [list(d["options"].keys())] *)
Definition payload_options (d : Payload) : list string :=
  match payload_get "options" d with
  | Some (VOptions o) => map fst o
  | _ => []
  end.

Definition get_approval_request_data
    (generated_command user_prompt : string) (retry_count : Z) : Payload :=
  [ ("question", VStr "Do you want to execute this command?");
    ("command", VStr generated_command);
    ("user_prompt", VStr user_prompt);
    ("retry_count", VInt retry_count);
    ("options", VOptions [ ("approve", "Execute the command");
                           ("reject", "Generate a different command");
                           ("cancel", "Cancel the operation") ]) ].

Definition get_retry_request_data
    (original_command error output : string) (retry_count : Z) : Payload :=
  [ ("question", VStr "Command failed. Do you want me to try a different approach?");
    ("original_command", VStr original_command);
    ("error", VStr error);
    ("output", VStr output);
    ("retry_count", VInt retry_count);
    ("options", VOptions [ ("retry", "Yes, try a different command");
                           ("stop", "No, stop here") ]) ].

(** ** graph.py *)

(** The nodes registered by [create_agent_graph], and [__end__]. *)
Inductive Node : Type :=
| generate_command
| human_approval
| execute_command
| check_result
| retry_command
| END.

Global Instance Node_eq_dec : EqDecision Node.
Proof. solve_decision. Defined.

(** What running a node gives: [interrupt(...)] raised because no resume
    value is available, a plain dictionary, or a [Command]. *)
Inductive NodeResult : Type :=
| GraphInterrupt (value : Payload)
| Return (update : Update)
| Command (goto : Node) (update : Update).

(** The collaborators.  [llm_invoke n msgs] is the content of the answer
    to the [n]-th call of [llm.invoke], [subprocess_run n] is what the
    [n]-th call of [subprocess.run] does, [uuid4 n] is [str(uuid4())] at
    the [n]-th call, [hash] is the interpreter's [hash] on strings. *)
Record Env : Type := mkEnv {
  llm_invoke : nat -> list Message -> string;
  subprocess_run : nat -> string -> Z -> ProcResult;
  uuid4 : nat -> string;
  hash : string -> Z
}.

(** What has happened so far: the number of model calls and the commands
    handed to [subprocess.run], oldest first. *)
Record World : Type := mkWorld {
  llm_calls : nat;
  executed : list string
}.

Definition world0 : World := mkWorld 0 [].

Definition generate_command_node
    (invoke : list Message -> string) (state : AgentState) : Update :=
  let system_message := get_command_generation_prompt in
  let human_message := HumanMessage (user_prompt state) in
  let response := invoke [system_message; human_message] in
  let generated_command := clean_command_output response in
  {| u_messages := Some [system_message; human_message; AIMessage response];
     u_generated_command := Some generated_command;
     u_command_output := None; u_command_error := None;
     u_execution_approved := None;
     u_retry_count := Some (retry_count state) |}.

Definition human_approval_node
    (resume : option string) (state : AgentState) : NodeResult :=
  let approval_data :=
    get_approval_request_data (generated_command state) (user_prompt state)
                              (retry_count state) in
  match resume with
  | None => GraphInterrupt approval_data
  | Some human_response =>
      if String.eqb human_response "approve" then
        Command execute_command
          (mkUpdate None None None None (Some true) None)
      else if String.eqb human_response "reject" then
        Command generate_command
          (mkUpdate None None None None (Some false) None)
      else Command END no_update
  end.

Definition execute_command_node
    (run : string -> Z -> ProcResult) (state : AgentState) : Update :=
  execute_shell_command run (generated_command state) default_timeout.

Definition check_result_node
    (resume : option string) (state : AgentState) : NodeResult :=
  let command_error := command_error state in
  let command_output := command_output state in
  let retry_count := retry_count state in
  if PyStr.truthy command_error && (retry_count <? 3) then
    let retry_data :=
      get_retry_request_data (generated_command state) command_error
                             command_output retry_count in
    match resume with
    | None => GraphInterrupt retry_data
    | Some human_response =>
        if String.eqb human_response "retry" then
          Command retry_command
            (mkUpdate None None None None None (Some (retry_count + 1)))
        else Command END no_update
    end
  else Command END no_update.

Definition retry_command_node
    (invoke : list Message -> string) (state : AgentState) : Update :=
  let system_message :=
    get_retry_command_prompt (user_prompt state) (generated_command state)
                             (command_error state) (retry_count state) in
  let human_message :=
    HumanMessage ("Generate alternative command for: " ++ user_prompt state) in
  let response := invoke [system_message; human_message] in
  let generated_command := clean_command_output response in
  mkUpdate None (Some generated_command) None None None None.

Definition is_end (n : Node) : bool :=
  match n with END => true | _ => false end.

(** The edges added with [add_edge]. *)
Definition edge (n : Node) : Node :=
  match n with
  | generate_command => human_approval
  | execute_command => check_result
  | retry_command => human_approval
  | _ => END
  end.

(** ** The graph runtime

    A thread's checkpoint: the state values and the node to run next
    ([END] when the run is over). *)
Record Checkpoint : Type := mkCheckpoint {
  values : AgentState;
  next : Node
}.

Section Runtime.

Variable env : Env.

(** Run one node.  [resume] is the value of [Command(resume=...)] when
    the node is re-run after its interrupt. *)
Definition run_node (resume : option string) (n : Node) (w : World)
    (state : AgentState) : NodeResult * World :=
  match n with
  | generate_command =>
      (Return (generate_command_node (llm_invoke env (llm_calls w)) state),
       mkWorld (S (llm_calls w)) (executed w))
  | human_approval => (human_approval_node resume state, w)
  | execute_command =>
      (Return (execute_command_node
                 (subprocess_run env (List.length (executed w))) state),
       mkWorld (llm_calls w) (executed w ++ [generated_command state]))
  | check_result => (check_result_node resume state, w)
  | retry_command =>
      (Return (retry_command_node (llm_invoke env (llm_calls w)) state),
       mkWorld (S (llm_calls w)) (executed w))
  | END => (Command END no_update, w)
  end.

Inductive StepResult : Type :=
| Interrupted (value : Payload)
| Advanced (ck : Checkpoint) (w : World).

(** One step of the run loop: run the pending node, merge what it
    returns and follow its edge or its [goto]. *)
Definition superstep (resume : option string) (ck : Checkpoint) (w : World)
    : StepResult :=
  match run_node resume (next ck) w (values ck) with
  | (GraphInterrupt v, _) => Interrupted v
  | (Return u, w') =>
      Advanced (mkCheckpoint (apply_update u (values ck)) (edge (next ck))) w'
  | (Command goto u, w') =>
      Advanced (mkCheckpoint (apply_update u (values ck)) goto) w'
  end.

(** How a call of [invoke] ends. *)
Inductive Outcome : Type :=
| Suspended (interrupts : list Payload)
| Finished
| GraphRecursionError.

(** The run loop: steps until the graph ends or a node interrupts;
    [limit] is the recursion limit. *)
Fixpoint pregel (limit : nat) (resume : option string) (ck : Checkpoint)
    (w : World) : Outcome * Checkpoint * World :=
  if is_end (next ck) then (Finished, ck, w)
  else
    match limit with
    | O => (GraphRecursionError, ck, w)
    | S limit' =>
        match superstep resume ck w with
        | Interrupted v => (Suspended [v], ck, w)
        | Advanced ck' w' => pregel limit' None ck' w'
        end
    end.

Definition recursion_limit : nat := 25.

(** [app.invoke(initial_state, config)] on a thread with no checkpoint. *)
Definition start (input : AgentState) (w : World) : Outcome * Checkpoint * World :=
  pregel recursion_limit None (mkCheckpoint input generate_command) w.

(** [app.invoke(Command(resume=v), config)] on a thread's checkpoint. *)
Definition resume_with (v : string) (ck : Checkpoint) (w : World)
    : Outcome * Checkpoint * World :=
  pregel recursion_limit (Some v) ck w.

(** The states a session goes through, step by step. *)
Inductive reach (prompt : string) : Checkpoint -> World -> Prop :=
| reach_start w :
    reach prompt (mkCheckpoint (initial_state prompt) generate_command) w
| reach_step r ck w ck' w' :
    reach prompt ck w ->
    superstep r ck w = Advanced ck' w' ->
    reach prompt ck' w'.

(** Feeding a list of decisions to a thread, one [invoke] each. *)
Fixpoint decide_all (vs : list string) (r : Outcome * Checkpoint * World)
    : Outcome * Checkpoint * World :=
  match vs with
  | [] => r
  | v :: vs' => decide_all vs' (resume_with v (snd (fst r)) (snd r))
  end.

(** The checkpointer ([MemorySaver]): one checkpoint per thread id. *)
Inductive Input : Type :=
| NewInput (state : AgentState)
| ResumeCommand (v : string).

(** Writing a new input into a thread: [messages] goes through its
    reducer, every other key of the input overwrites the stored one. *)
Definition merge_input (input : AgentState) (old : option Checkpoint)
    : AgentState :=
  match old with
  | None => input
  | Some ck =>
      {| messages := (messages (values ck) ++ messages input)%list;
         user_prompt := user_prompt input;
         generated_command := generated_command input;
         command_output := command_output input;
         command_error := command_error input;
         execution_approved := execution_approved input;
         retry_count := retry_count input |}
  end.

(** [graph.invoke(arg, config)] with [config]'s [thread_id]; [None]
    when the call raises (no checkpoint to resume). *)
Definition invoke (arg : Input) (thread_id : string)
    (mem : gmap string Checkpoint) (w : World)
    : option (Outcome * gmap string Checkpoint * World) :=
  match arg with
  | NewInput input =>
      let '(o, ck, w') :=
        start (merge_input input (mem !! thread_id)) w in
      Some (o, <[thread_id := ck]> mem, w')
  | ResumeCommand v =>
      match mem !! thread_id with
      | Some ck0 =>
          let '(o, ck, w') := resume_with v ck0 w in
          Some (o, <[thread_id := ck]> mem, w')
      | None => None
      end
  end.

End Runtime.

(** The thread id the command-line loop of [graph.py] gives a request. *)
Definition cli_thread_id (env : Env) (user_input : string) : string :=
  "session_" ++ PyStr.str_of_int (hash env user_input).

(** The command-line loop starting a request: build the initial state
    and invoke the graph on the request's thread. *)
Definition cli_start (env : Env) (user_input : string)
    (mem : gmap string Checkpoint) (w : World)
    : option (Outcome * gmap string Checkpoint * World) :=
  invoke env (NewInput (initial_state user_input))
         (cli_thread_id env user_input) mem w.

(** ** server.py *)

(** Values of the keyword arguments of an outbound message. *)
Inductive JVal : Type :=
| JStr (s : string)
| JInt (n : Z)
| JBool (b : bool).

(** The JSON object [send_message] builds. *)
Record OutMessage : Type := mkOut {
  m_type : string;
  m_content : string;
  m_kwargs : list (string * JVal)
}.

(** An entry of [active_sessions]. *)
Record Session : Type := mkSession {
  config : string;
  waiting_for_response : bool;
  interrupt_type : option string
}.

Record AgentServer : Type := mkServer {
  clients : gset string;
  active_sessions : gmap string Session;
  memory : gmap string Checkpoint;
  world : World;
  uuid_calls : nat;
  sent : list (string * OutMessage)
}.

Definition set_sessions (f : gmap string Session -> gmap string Session)
    (sv : AgentServer) : AgentServer :=
  mkServer (clients sv) (f (active_sessions sv)) (memory sv) (world sv)
           (uuid_calls sv) (sent sv).

Definition set_graph (mem : gmap string Checkpoint) (w : World)
    (sv : AgentServer) : AgentServer :=
  mkServer (clients sv) (active_sessions sv) mem w (uuid_calls sv) (sent sv).

(** [send_message]: dropped when the client is not registered. *)
Definition send_message (client_id message_type content : string)
    (kwargs : list (string * JVal)) (sv : AgentServer) : AgentServer :=
  if decide (client_id ∈ clients sv) then
    mkServer (clients sv) (active_sessions sv) (memory sv) (world sv)
             (uuid_calls sv)
             (sent sv ++ [(client_id, mkOut message_type content kwargs)])
  else sv.

(** The final message of a finished run, from the thread's state. *)
Definition send_command_output (client_id : string) (final_state : AgentState)
    (sv : AgentServer) : AgentServer :=
  if PyStr.truthy (command_error final_state) then
    send_message client_id "command_output" ""
      [ ("output", JStr (command_output final_state));
        ("error", JStr (command_error final_state));
        ("success", JBool false) ] sv
  else
    send_message client_id "command_output" ""
      [ ("output", JStr (command_output final_state));
        ("success", JBool true) ] sv.

(** The body of the loop of [handle_interrupt] for one interrupt. *)
Definition handle_one_interrupt (client_id : string) (cfg : string)
    (interrupt_value : Payload) (sv : AgentServer) : AgentServer :=
  if payload_has "command" interrupt_value then
    send_message client_id "command_approval" ""
      [ ("command", JStr (payload_str "command" interrupt_value));
        ("explanation", JStr (payload_str "question" interrupt_value));
        ("retry_count", JInt (payload_int "retry_count" interrupt_value)) ]
      (set_sessions (alter (fun _ => mkSession cfg true (Some "approval"))
                           client_id) sv)
  else if payload_has "error" interrupt_value then
    send_message client_id "retry_request" ""
      [ ("command", JStr (payload_str "command" interrupt_value));
        ("error", JStr (payload_str "error" interrupt_value));
        ("output", JStr (payload_str "output" interrupt_value));
        ("retry_count", JInt (payload_int "retry_count" interrupt_value)) ]
      (set_sessions (alter (fun _ => mkSession cfg true (Some "retry"))
                           client_id) sv)
  else sv.

Definition handle_interrupt (client_id : string) (interrupts : list Payload)
    (cfg : string) (sv : AgentServer) : AgentServer :=
  fold_left (fun sv v => handle_one_interrupt client_id cfg v sv) interrupts sv.

(** What [run_agent_graph] and [continue_after_response] do with the
    result of an [invoke]: forward the interrupt and wait, or send the
    final message and drop the session. *)
Definition continue_after_response (client_id : string) (o : Outcome)
    (cfg : string) (sv : AgentServer) : AgentServer :=
  match o with
  | Suspended (v :: vs) => handle_interrupt client_id (v :: vs) cfg sv
  | Suspended [] | Finished =>
      match memory sv !! cfg with
      | Some ck =>
          set_sessions (delete client_id)
            (send_command_output client_id (values ck) sv)
      | None => sv
      end
  | GraphRecursionError => sv
  end.

Section Server.

Variable env : Env.

(** The [except Exception] arms of the handlers: report [str(e)]. *)
Definition report_exception (client_id : string) (sv : AgentServer)
    : AgentServer :=
  send_message client_id "error" "GraphRecursionError" [] sv.

Definition run_agent_graph (client_id : string) (state : AgentState)
    (cfg : string) (sv : AgentServer) : AgentServer :=
  match invoke env (NewInput state) cfg (memory sv) (world sv) with
  | Some (GraphRecursionError, mem, w) =>
      set_sessions (delete client_id)
        (report_exception client_id (set_graph mem w sv))
  | Some (o, mem, w) =>
      continue_after_response client_id o cfg (set_graph mem w sv)
  | None =>
      set_sessions (delete client_id) (report_exception client_id sv)
  end.

Definition start_agent_session (client_id user_prompt : string)
    (sv : AgentServer) : AgentServer :=
  let initial_state := initial_state user_prompt in
  let cfg := "session_" ++ client_id ++ "_" ++ uuid4 env (uuid_calls sv) in
  let sv :=
    mkServer (clients sv)
             (<[client_id := mkSession cfg false None]> (active_sessions sv))
             (memory sv) (world sv) (S (uuid_calls sv)) (sent sv) in
  run_agent_graph client_id initial_state cfg sv.

(** The common part of [handle_approval_response] and
    [handle_retry_response] once the guards have passed. *)
Definition resume_session (client_id response : string) (session : Session)
    (sv : AgentServer) : AgentServer :=
  match invoke env (ResumeCommand response) (config session)
               (memory sv) (world sv) with
  | Some (GraphRecursionError, mem, w) =>
      report_exception client_id (set_graph mem w sv)
  | Some (o, mem, w) =>
      continue_after_response client_id o (config session)
        (set_sessions
           (alter (fun s => mkSession (config s) false None) client_id)
           (set_graph mem w sv))
  | None => report_exception client_id sv
  end.

Definition handle_approval_response (client_id : string) (approved : bool)
    (sv : AgentServer) : AgentServer :=
  match active_sessions sv !! client_id with
  | None => send_message client_id "error" "No active session found" [] sv
  | Some session =>
      if negb (waiting_for_response session)
         || negb (bool_decide (interrupt_type session = Some "approval"))
      then send_message client_id "error" "Not waiting for approval" [] sv
      else
        let response := if approved then "approve" else "reject" in
        resume_session client_id response session sv
  end.

Definition handle_retry_response (client_id : string) (retry : bool)
    (sv : AgentServer) : AgentServer :=
  match active_sessions sv !! client_id with
  | None => send_message client_id "error" "No active session found" [] sv
  | Some session =>
      if negb (waiting_for_response session)
         || negb (bool_decide (interrupt_type session = Some "retry"))
      then send_message client_id "error" "Not waiting for retry response" [] sv
      else
        let response := if retry then "retry" else "cancel" in
        resume_session client_id response session sv
  end.

End Server.

(** ** main.py

    The single-file variant of the agent cleans the model's answer in
    place in its two generation nodes: it strips first and does not strip
    again at the end. *)
Definition inline_clean (content : string) : string :=
  let generated_command := PyStr.strip content in
  let generated_command :=
    if PyStr.startswith generated_command fence then
      let lines := PyStr.split PyStr.newline generated_command in
      match lines with
      | _ :: l1 :: _ => l1
      | _ => generated_command
      end
    else generated_command in
  if PyStr.endswith generated_command fence
  then PyStr.strip (PyStr.drop_last 3 generated_command)
  else generated_command.

(** Handling a client for a whole exchange: a request followed by a list
    of approval ([inl]) and retry ([inr]) responses. *)
Definition serve (env : Env) (client_id user_prompt : string)
    (responses : list (bool + bool)) (sv : AgentServer) : AgentServer :=
  fold_left
    (fun sv r =>
       match r with
       | inl approved => handle_approval_response env client_id approved sv
       | inr retry => handle_retry_response env client_id retry sv
       end)
    responses (start_agent_session env client_id user_prompt sv).

(** The types of the messages sent so far, oldest first. *)
Definition sent_types (sv : AgentServer) : list string :=
  map (fun m => m_type (snd m)) (sent sv).

(** ** utils.py: the command-line interrupt loop *)

(** How [handle_user_interrupt] ends: it returns the result, [input()]
    raises [EOFError], the loop spins on interrupts that carry no
    question, or [app.invoke] raises. *)
Inductive CliEnd : Type :=
| CliReturn
| CliEOF
| CliHang
| CliRaise.

(** The state of the command-line loop: how it ended (so far), the
    thread, the lines of standard input not read yet, and the values
    passed to [Command(resume=...)], oldest first. *)
Record CliRun : Type := mkCliRun {
  cli_end : CliEnd;
  cli_result : Outcome * Checkpoint * World;
  cli_unread : list string;
  cli_submitted : list string
}.

(** [handle_user_interrupt(result, config, app)], reading the user's
    answers from [lines].  Each line is one call of [input()]: it is
    either refused (the question is asked again) or submitted. *)
Fixpoint handle_user_interrupt (env : Env) (lines : list string)
    (result : Outcome * Checkpoint * World) (submitted : list string)
    : CliRun :=
  match fst (fst result) with
  | Suspended (i0 :: more) =>
      match List.find (payload_has "question") (i0 :: more) with
      | None => mkCliRun CliHang result lines submitted
      | Some interrupt_value =>
          match lines with
          | [] => mkCliRun CliEOF result [] submitted
          | line :: rest =>
              if payload_has "options" interrupt_value then
                let valid_options := payload_options interrupt_value in
                let user_response := PyStr.lower (PyStr.strip line) in
                if bool_decide (user_response ∈ valid_options) then
                  handle_user_interrupt env rest
                    (resume_with env user_response (snd (fst result))
                                 (snd result))
                    (submitted ++ [user_response])
                else handle_user_interrupt env rest result submitted
              else
                let user_response := PyStr.strip line in
                handle_user_interrupt env rest
                  (resume_with env user_response (snd (fst result))
                               (snd result))
                  (submitted ++ [user_response])
          end
      end
  | Suspended [] | Finished => mkCliRun CliReturn result lines submitted
  | GraphRecursionError => mkCliRun CliRaise result lines submitted
  end.

(** One request of the command-line loop of [graph.py]: start the graph
    on the initial state, then answer its interrupts from [lines]. *)
Definition cli_request (env : Env) (user_input : string) (lines : list string)
    : CliRun :=
  handle_user_interrupt env lines (start env (initial_state user_input) world0) [].

(** ** server.py: connections and dispatch *)

Definition set_clients (f : gset string -> gset string) (sv : AgentServer)
    : AgentServer :=
  mkServer (f (clients sv)) (active_sessions sv) (memory sv) (world sv)
           (uuid_calls sv) (sent sv).

Definition register_client (client_id : string) (sv : AgentServer)
    : AgentServer :=
  set_clients (fun cs => {[client_id]} ∪ cs) sv.

Definition unregister_client (client_id : string) (sv : AgentServer)
    : AgentServer :=
  if decide (client_id ∈ clients sv)
  then set_clients (fun cs => cs ∖ {[client_id]}) sv
  else sv.

(** A decoded message of a client: its [type] key when present, its
    [content] (empty by default), and its [approved] and [retry] keys
    read as booleans (false by default). *)
Record ClientMessage : Type := mkClientMessage {
  msg_type : option string;
  msg_content : string;
  msg_approved : bool;
  msg_retry : bool
}.

(** [str(x)] for the value of [message.get("type")] *)
Definition str_of_type (t : option string) : string :=
  match t with Some s => s | None => "None" end.

Definition handle_client_message (env : Env) (client_id : string)
    (message : ClientMessage) (sv : AgentServer) : AgentServer :=
  let message_type := msg_type message in
  let content := msg_content message in
  if bool_decide (message_type = Some "message") then
    start_agent_session env client_id content sv
  else if bool_decide (message_type = Some "command_approval") then
    handle_approval_response env client_id (msg_approved message) sv
  else if bool_decide (message_type = Some "retry_response") then
    handle_retry_response env client_id (msg_retry message) sv
  else
    send_message client_id "error"
      ("Unknown message type: " ++ str_of_type message_type) [] sv.

(** One frame of a connection: text that [json.loads] refuses, or a
    decoded message. *)
Definition Frame : Type := option ClientMessage.

Definition handle_frame (env : Env) (client_id : string) (frame : Frame)
    (sv : AgentServer) : AgentServer :=
  match frame with
  | None => send_message client_id "error" "Invalid JSON message" [] sv
  | Some data => handle_client_message env client_id data sv
  end.

(** [handle_websocket] for a connection that delivers [frames] and is
    then closed: register under a fresh id, greet, handle the frames,
    and in the [finally] arm unregister and drop the session. *)
Definition handle_websocket (env : Env) (frames : list Frame)
    (sv : AgentServer) : AgentServer :=
  let client_id := uuid4 env (uuid_calls sv) in
  let sv :=
    mkServer (clients sv) (active_sessions sv) (memory sv) (world sv)
             (S (uuid_calls sv)) (sent sv) in
  let sv := register_client client_id sv in
  let sv :=
    send_message client_id "message" "Connected to Cloud Assist Agent" [] sv in
  let sv := fold_left (fun sv f => handle_frame env client_id f sv) frames sv in
  set_sessions (delete client_id) (unregister_client client_id sv).

(** The id [handle_websocket] gives the connection it accepts in [sv]. *)
Definition next_client_id (env : Env) (sv : AgentServer) : string :=
  uuid4 env (uuid_calls sv).

(** ** Vocabulary of the statements *)

Section Steps.

Variable env : Env.

Definition after_generate (st : AgentState) (w : World) : AgentState :=
  apply_update (generate_command_node (llm_invoke env (llm_calls w)) st) st.

Definition after_execute (st : AgentState) (w : World) : AgentState :=
  apply_update
    (execute_command_node (subprocess_run env (List.length (executed w)))
       (apply_update (mkUpdate None None None None (Some true) None) st))
    (apply_update (mkUpdate None None None None (Some true) None) st).

Definition after_retry (st : AgentState) (w : World) : AgentState :=
  let st1 :=
    apply_update (mkUpdate None None None None None (Some (retry_count st + 1)))
                 st in
  apply_update (retry_command_node (llm_invoke env (llm_calls w)) st1) st1.

Definition ask_approval (st : AgentState) : Payload :=
  get_approval_request_data (generated_command st) (user_prompt st)
                            (retry_count st).

Definition ask_retry (st : AgentState) : Payload :=
  get_retry_request_data (generated_command st) (command_error st)
                         (command_output st) (retry_count st).

Definition called_llm (w : World) : World :=
  mkWorld (S (llm_calls w)) (executed w).

Definition ran (cmd : string) (w : World) : World :=
  mkWorld (llm_calls w) (executed w ++ [cmd]).

Definition retry_offered (st : AgentState) : bool :=
  PyStr.truthy (command_error st) && (retry_count st <? 3).

(** The command a session holds once it has left generation is the
    cleaned text of some answer of the model. *)
Definition generated_by_llm (ck : Checkpoint) : Prop :=
  next ck = generate_command \/
  exists n msgs,
    generated_command (values ck) = clean_command_output (llm_invoke env n msgs).

End Steps.

(** ** Sample environments *)

(** A model that always answers with a fenced listing command, and a
    shell in which every command fails with a message on stderr. *)
Definition env_failing : Env :=
  {| llm_invoke := fun _ _ => "```" ++ nl ++ "ls /nonexistent" ++ nl ++ "```";
     subprocess_run := fun _ _ _ => Completed 2 "" "ls: cannot access";
     uuid4 := fun n => "uuid-" ++ PyStr.str_of_int (Z.of_nat n);
     hash := fun s => Z.of_nat (String.length s) |}.

(** A model that answers with an empty fenced block, and a shell in
    which every command succeeds silently. *)
Definition env_empty_answer : Env :=
  {| llm_invoke := fun _ _ => "```";
     subprocess_run := fun _ _ _ => Completed 0 "" "";
     uuid4 := fun n => "uuid-" ++ PyStr.str_of_int (Z.of_nat n);
     hash := fun s => Z.of_nat (String.length s) |}.

(** A model that answers [ls -la]; the shell times out on every call. *)
Definition env_timeout : Env :=
  {| llm_invoke := fun _ _ => "ls -la";
     subprocess_run := fun _ _ _ => TimeoutExpired;
     uuid4 := fun n => "uuid-" ++ PyStr.str_of_int (Z.of_nat n);
     hash := fun s => Z.of_nat (String.length s) |}.

(** A session that has just been started and waits for approval. *)
Definition first_approval (env : Env) (prompt : string)
    : Outcome * Checkpoint * World :=
  start env (initial_state prompt) world0.

(** Whether the execution of [c] leaves a non-empty [command_error]. *)
Definition execution_fails (run : string -> Z -> ProcResult) (c : string)
    (t : Z) : bool :=
  match u_command_error (execute_shell_command run c t) with
  | Some e => PyStr.truthy e
  | None => false
  end.

Definition always_fails (env : Env) : Prop :=
  forall n c t, execution_fails (subprocess_run env n) c t = true.

(** The final message of a run whose last state holds an error. *)
Definition failure_message (st : AgentState) : OutMessage :=
  mkOut "command_output" ""
    [ ("output", JStr (command_output st)); ("error", JStr (command_error st));
      ("success", JBool false) ].

(** The final message of a run whose last state holds no error. *)
Definition success_message (st : AgentState) : OutMessage :=
  mkOut "command_output" ""
    [ ("output", JStr (command_output st)); ("success", JBool true) ].

(** The client has no session, or its session is not waiting for a
    response of kind [kind]. *)
Definition not_waiting_for (kind client_id : string) (sv : AgentServer) : Prop :=
  match active_sessions sv !! client_id with
  | None => True
  | Some session =>
      waiting_for_response session = false \/ interrupt_type session <> Some kind
  end.

(** [sv'] differs from [sv] by one [error] message to the client at most. *)
Definition only_an_error_sent (client_id : string) (sv sv' : AgentServer) : Prop :=
  active_sessions sv' = active_sessions sv
  /\ memory sv' = memory sv
  /\ world sv' = world sv
  /\ (client_id ∈ clients sv ->
      exists content,
        sent sv' = (sent sv ++ [(client_id, mkOut "error" content [])])%list).

(** A server with one connected client and no session. *)
Definition idle_server : AgentServer :=
  mkServer {["client-1"]} ∅ ∅ world0 0 [].

(** Messages stored for a thread. *)
Definition stored_messages (tid : string) (mem : gmap string Checkpoint)
    : option nat :=
  (fun ck => List.length (messages (values ck))) <$> mem !! tid.


(** ** Vocabulary of the further statements *)

(** What a call of [invoke] leaves behind: a finished thread at [END],
    or a thread suspended on exactly one request, the approval request
    of its state at [human_approval] or the retry request of its state
    at [check_result]. *)
Definition settled (r : Outcome * Checkpoint * World) : Prop :=
  let ck := snd (fst r) in
  match fst (fst r) with
  | Finished => next ck = END
  | Suspended vs =>
      (next ck = human_approval /\ vs = [ask_approval (values ck)])
      \/ (next ck = check_result /\ vs = [ask_retry (values ck)]
          /\ retry_offered (values ck) = true)
  | GraphRecursionError => False
  end.

(** Executions against retries, by the node a thread is at. *)
Definition executions_match (ck : Checkpoint) (w : World) : Prop :=
  let e := Z.of_nat (List.length (executed w)) in
  let k := retry_count (values ck) in
  0 <= k <= 3
  /\ match next ck with
     | check_result => e = k + 1
     | END => e = k \/ e = k + 1
     | _ => e = k
     end.

(** The text has no line break. *)
Fixpoint no_newline (s : string) : bool :=
  match s with
  | EmptyString => true
  | String c s' => negb (Ascii.eqb c PyStr.newline) && no_newline s'
  end.

(** The second half of the cleaning: drop one closing fence. *)
Definition drop_closing_fence (command : string) : string :=
  if PyStr.endswith command fence
  then PyStr.strip (PyStr.drop_last 3 command)
  else command.


(** [sv'] differs from [sv] only in the session of client [a] and in
    messages sent to [a]. *)
Definition quiet_for_others (a : string) (sv sv' : AgentServer) : Prop :=
  clients sv' = clients sv
  /\ memory sv' = memory sv
  /\ world sv' = world sv
  /\ uuid_calls sv' = uuid_calls sv
  /\ (forall b, b <> a -> active_sessions sv' !! b = active_sessions sv !! b)
  /\ exists l, sent sv' = (sent sv ++ l)%list /\ Forall (fun m => fst m = a) l.

(** [sv'] differs from [sv] only in the session of client [a], in
    messages sent to [a], in the world, and in the checkpoints of the
    threads [ths]; no checkpoint is removed. *)
Definition touches_only (a : string) (ths : list string)
    (sv sv' : AgentServer) : Prop :=
  clients sv' = clients sv
  /\ (forall b, b <> a -> active_sessions sv' !! b = active_sessions sv !! b)
  /\ (exists l, sent sv' = (sent sv ++ l)%list /\ Forall (fun m => fst m = a) l)
  /\ (forall t, is_Some (memory sv !! t) -> is_Some (memory sv' !! t))
  /\ (forall t, t ∉ ths -> memory sv' !! t = memory sv !! t).

(** The threads a frame of client [a] can write: the one a new session
    would get and the one of the session [a] has. *)
Definition threads_of (env : Env) (a : string) (sv : AgentServer) : list string :=
  ("session_" ++ a ++ "_" ++ uuid4 env (uuid_calls sv))
  :: match active_sessions sv !! a with
     | Some session => [config session]
     | None => []
     end.

(** [sv'] differs from [sv] only in the session of client [a], in
    messages sent to [a], in the world and in checkpoints written; no
    checkpoint is removed. *)
Definition serves_only (a : string) (sv sv' : AgentServer) : Prop :=
  clients sv' = clients sv
  /\ (forall b, b <> a -> active_sessions sv' !! b = active_sessions sv !! b)
  /\ (exists l, sent sv' = (sent sv ++ l)%list /\ Forall (fun m => fst m = a) l)
  /\ (forall t, is_Some (memory sv !! t) -> is_Some (memory sv' !! t)).





Definition welcome_message : OutMessage :=
  mkOut "message" "Connected to Cloud Assist Agent" [].

(** The five option keys of the two requests. *)
Definition option_keys : list string :=
  ["approve"; "reject"; "cancel"; "retry"; "stop"].

(** * Properties *)

(** ** Stripping *)

Section StripLemmas.

Import PyStr.

Lemma lstrip_idem s : lstrip (lstrip s) = lstrip s.
Proof.
  induction s as [|c s IH]; simpl; [reflexivity|].
  destruct (isspace c) eqn:Hc; [exact IH|].
  simpl. now rewrite Hc.
Qed.

Lemma rstrip_idem s : rstrip (rstrip s) = rstrip s.
Proof.
  induction s as [|c s IH]; simpl; [reflexivity|].
  destruct (rstrip s) as [|d r] eqn:Hr.
  - destruct (isspace c) eqn:Hc; simpl; [reflexivity|now rewrite Hc].
  - change (rstrip (String c (String d r))) with
      (match rstrip (String d r) with
       | EmptyString => if isspace c then EmptyString else String c EmptyString
       | q => String c q
       end).
    now rewrite IH.
Qed.

Lemma rstrip_lstrip s : rstrip (lstrip s) = lstrip (rstrip s).
Proof.
  induction s as [|c s IH]; [reflexivity|].
  cbn [lstrip rstrip].
  destruct (isspace c) eqn:Hc.
  - rewrite IH. destruct (rstrip s) as [|d r]; cbn [lstrip]; now rewrite ?Hc.
  - cbn [rstrip]. destruct (rstrip s) as [|d r]; cbn [lstrip]; now rewrite Hc.
Qed.

Lemma strip_idem s : strip (strip s) = strip s.
Proof.
  unfold strip. now rewrite rstrip_lstrip, lstrip_idem, rstrip_idem.
Qed.

(** Whatever the input, the cleaned command is a stripped string. *)
Lemma clean_is_stripped s : exists x, clean_command_output s = strip x.
Proof. unfold clean_command_output. eexists. reflexivity. Qed.

Lemma clean_without_fence s :
  startswith s fence = false -> endswith s fence = false ->
  clean_command_output s = strip s.
Proof.
  intros Hs He. unfold clean_command_output. now rewrite Hs, He.
Qed.

End StripLemmas.

(** ** The run loop, one [invoke] at a time *)

Section RuntimeLemmas.

Variable env : Env.

Lemma apply_no_update st : apply_update no_update st = st.
Proof. now destruct st. Qed.

Lemma pregel_end n r st w :
  pregel env n r (mkCheckpoint st END) w = (Finished, mkCheckpoint st END, w).
Proof. now destruct n. Qed.

Lemma pregel_generate n r st w :
  pregel env (S (S n)) r (mkCheckpoint st generate_command) w
  = (Suspended [ask_approval (after_generate env st w)],
     mkCheckpoint (after_generate env st w) human_approval, called_llm w).
Proof. reflexivity. Qed.

Lemma pregel_ask_approval n st w :
  pregel env (S n) None (mkCheckpoint st human_approval) w
  = (Suspended [ask_approval st], mkCheckpoint st human_approval, w).
Proof. reflexivity. Qed.

Lemma pregel_approve n st w :
  pregel env (S (S (S n))) (Some "approve") (mkCheckpoint st human_approval) w
  = let st' := after_execute env st w in
    if PyStr.truthy (command_error st') && (retry_count st' <? 3)
    then (Suspended [ask_retry st'], mkCheckpoint st' check_result,
          ran (generated_command st) w)
    else (Finished, mkCheckpoint st' END, ran (generated_command st) w).
Proof.
  cbn [pregel next is_end superstep run_node human_approval_node String.eqb
       Ascii.eqb Bool.eqb values edge].
  unfold check_result_node. fold (after_execute env st w).
  cbv zeta. cbn [fst snd].
  destruct (PyStr.truthy _ && _) eqn:Hc.
  - reflexivity.
  - rewrite apply_no_update. destruct n; reflexivity.
Qed.

Lemma pregel_reject n st w :
  pregel env (S (S (S n))) (Some "reject") (mkCheckpoint st human_approval) w
  = let st' :=
      after_generate env
        (apply_update (mkUpdate None None None None (Some false) None) st) w in
    (Suspended [ask_approval st'], mkCheckpoint st' human_approval,
     called_llm w).
Proof. reflexivity. Qed.

(** At the approval point every answer other than [approve] and
    [reject] takes the [else] branch. *)
Lemma pregel_approval_else n v st w :
  v <> "approve" -> v <> "reject" ->
  pregel env (S (S n)) (Some v) (mkCheckpoint st human_approval) w
  = (Finished, mkCheckpoint st END, w).
Proof.
  intros Ha Hr.
  cbn [pregel next is_end superstep run_node human_approval_node values].
  apply String.eqb_neq in Ha, Hr. rewrite Ha, Hr.
  now rewrite apply_no_update.
Qed.

Lemma pregel_ask_retry n st w :
  retry_offered st = true ->
  pregel env (S n) None (mkCheckpoint st check_result) w
  = (Suspended [ask_retry st], mkCheckpoint st check_result, w).
Proof.
  intros H. unfold retry_offered in H.
  cbn [pregel next is_end superstep run_node values]. unfold check_result_node.
  now rewrite H.
Qed.

Lemma pregel_retry n st w :
  retry_offered st = true ->
  pregel env (S (S (S n))) (Some "retry") (mkCheckpoint st check_result) w
  = (Suspended [ask_approval (after_retry env st w)],
     mkCheckpoint (after_retry env st w) human_approval, called_llm w).
Proof.
  intros H. unfold retry_offered in H.
  cbn [pregel next is_end superstep run_node values]. unfold check_result_node.
  rewrite H. reflexivity.
Qed.

Lemma pregel_retry_else n v st w :
  v <> "retry" ->
  pregel env (S (S n)) (Some v) (mkCheckpoint st check_result) w
  = (Finished, mkCheckpoint st END, w).
Proof.
  intros Hv. apply String.eqb_neq in Hv.
  cbn [pregel next is_end superstep run_node values]. unfold check_result_node.
  rewrite Hv.
  destruct (PyStr.truthy _ && _); now rewrite apply_no_update.
Qed.

Lemma pregel_no_retry n r st w :
  retry_offered st = false ->
  pregel env (S (S n)) r (mkCheckpoint st check_result) w
  = (Finished, mkCheckpoint st END, w).
Proof.
  intros H. unfold retry_offered in H.
  cbn [pregel next is_end superstep run_node values]. unfold check_result_node.
  rewrite H. now rewrite apply_no_update.
Qed.

(** Every checkpoint a run leaves behind has been stepped to. *)
Lemma pregel_reach prompt n : forall r ck w o ck' w',
  reach env prompt ck w ->
  pregel env n r ck w = (o, ck', w') ->
  reach env prompt ck' w'.
Proof.
  induction n as [|n IH]; intros r ck w o ck' w' Hreach Hrun.
  - cbn [pregel] in Hrun. destruct (is_end (next ck)); inversion Hrun; now subst.
  - cbn [pregel] in Hrun.
    destruct (is_end (next ck)); [inversion Hrun; now subst|].
    destruct (superstep env r ck w) as [v|ck1 w1] eqn:Hstep.
    + inversion Hrun; now subst.
    + apply (IH None ck1 w1 o ck' w'); [|exact Hrun].
      exact (reach_step env prompt r ck w ck1 w1 Hreach Hstep).
Qed.

End RuntimeLemmas.

(** ** Invariants of a session *)

Section SessionInvariants.

Variable env : Env.

Lemma execute_shell_command_shape run c t :
  exists out err, execute_shell_command run c t = execution_result out err true.
Proof.
  unfold execute_shell_command.
  destruct (run c t) as [rc o e| |e]; [destruct (rc =? 0)| |]; eauto.
Qed.

Lemma superstep_retry_count r ck w ck' w' :
  superstep env r ck w = Advanced ck' w' ->
  0 <= retry_count (values ck) <= 3 ->
  0 <= retry_count (values ck') <= 3.
Proof.
  destruct ck as [st n]. unfold superstep. cbn [next values].
  intros Hstep Hb.
  destruct n; cbn [run_node] in Hstep.
  - inversion Hstep; subst; exact Hb.
  - unfold human_approval_node in Hstep. destruct r as [v|]; [|discriminate].
    destruct (String.eqb v "approve"); [|destruct (String.eqb v "reject")];
      inversion Hstep; subst; exact Hb.
  - inversion Hstep; subst. cbn [values].
    destruct (execute_shell_command_shape
                (subprocess_run env (List.length (executed w)))
                (generated_command st) default_timeout) as (o & e & He).
    unfold execute_command_node. rewrite He. exact Hb.
  - unfold check_result_node in Hstep.
    destruct (PyStr.truthy (command_error st)); cbn [andb] in Hstep.
    + destruct (retry_count st <? 3) eqn:Hlt.
      * destruct r as [v|]; [|discriminate].
        destruct (String.eqb v "retry"); inversion Hstep; subst; cbn;
          [apply Z.ltb_lt in Hlt; lia | exact Hb].
      * inversion Hstep; subst; exact Hb.
    + inversion Hstep; subst; exact Hb.
  - inversion Hstep; subst; exact Hb.
  - inversion Hstep; subst; exact Hb.
Qed.

Lemma reach_retry_count prompt ck w :
  reach env prompt ck w -> 0 <= retry_count (values ck) <= 3.
Proof.
  induction 1 as [w|r ck w ck' w' _ IH Hstep].
  - cbn. lia.
  - eapply superstep_retry_count; eauto.
Qed.

Lemma superstep_generated r ck w ck' w' :
  superstep env r ck w = Advanced ck' w' ->
  generated_by_llm env ck -> generated_by_llm env ck'.
Proof.
  destruct ck as [st n]. unfold superstep, generated_by_llm.
  cbn [next values]. intros Hstep Hg.
  destruct n; cbn [run_node] in Hstep.
  - inversion Hstep; subst. right. cbn. eauto.
  - destruct Hg as [Hg|Hg]; [discriminate|].
    unfold human_approval_node in Hstep. destruct r as [v|]; [|discriminate].
    destruct (String.eqb v "approve"); [|destruct (String.eqb v "reject")];
      inversion Hstep; subst; cbn; auto.
  - destruct Hg as [Hg|Hg]; [discriminate|].
    inversion Hstep; subst. right. cbn [values].
    destruct (execute_shell_command_shape
                (subprocess_run env (List.length (executed w)))
                (generated_command st) default_timeout) as (o & e & He).
    unfold execute_command_node. rewrite He. exact Hg.
  - destruct Hg as [Hg|Hg]; [discriminate|].
    unfold check_result_node in Hstep.
    destruct (PyStr.truthy (command_error st) && (retry_count st <? 3)).
    + destruct r as [v|]; [|discriminate].
      destruct (String.eqb v "retry"); inversion Hstep; subst; cbn; auto.
    + inversion Hstep; subst; cbn; auto.
  - inversion Hstep; subst. right. cbn. eauto.
  - destruct Hg as [Hg|Hg]; [discriminate|].
    inversion Hstep; subst; cbn; auto.
Qed.

Lemma reach_generated prompt ck w :
  reach env prompt ck w -> generated_by_llm env ck.
Proof.
  induction 1 as [w|r ck w ck' w' _ IH Hstep].
  - now left.
  - eapply superstep_generated; eauto.
Qed.

End SessionInvariants.

(** ** Cleaning the model's answer *)

Example clean_fenced_block :
  clean_command_output ("```bash" ++ nl ++ "ls -la" ++ nl ++ "```") = "ls -la".
Proof. reflexivity. Qed.

Example clean_plain : clean_command_output "  docker ps -a " = "docker ps -a".
Proof. reflexivity. Qed.

Example clean_one_line_fence : clean_command_output "```ls -la```" = "```ls -la".
Proof. reflexivity. Qed.

Example clean_trailing_fences : clean_command_output "ls``````" = "ls```".
Proof. reflexivity. Qed.

(** The in-place cleaning of [main.py] behaves the same way on these. *)
Example inline_clean_trailing_fences :
  inline_clean "ls``````" = "ls```" /\ inline_clean "ls```" = "ls".
Proof. split; reflexivity. Qed.

Lemma inline_clean_without_fence s :
  PyStr.startswith (PyStr.strip s) fence = false ->
  PyStr.endswith (PyStr.strip s) fence = false ->
  inline_clean s = PyStr.strip s.
Proof. intros Hs He. unfold inline_clean. now rewrite Hs, He. Qed.

(** C4 (as stated, refuted): cleaning is not idempotent, and a text that
    does not open with a fence is not always merely trimmed.  Two
    trailing fence markers lose one per pass, and a text that only ends
    with a marker loses it. *)
Lemma clean_command_output_not_idempotent :
  clean_command_output (clean_command_output "ls``````")
    <> clean_command_output "ls``````"
  /\ PyStr.startswith "ls```" fence = false
  /\ clean_command_output "ls```" <> PyStr.strip "ls```".
Proof. repeat split; vm_compute; congruence. Qed.

(** C4 (amended): a text that neither starts nor ends with the fence
    marker is only trimmed, and cleaning a cleaned text that neither
    starts nor ends with the marker returns it unchanged. *)
Theorem clean_command_output_fixpoint (s : string) :
  (PyStr.startswith s fence = false -> PyStr.endswith s fence = false ->
   clean_command_output s = PyStr.strip s)
  /\ (PyStr.startswith (clean_command_output s) fence = false ->
      PyStr.endswith (clean_command_output s) fence = false ->
      clean_command_output (clean_command_output s) = clean_command_output s).
Proof.
  split.
  - apply clean_without_fence.
  - intros Hs He. rewrite (clean_without_fence _ Hs He).
    destruct (clean_is_stripped s) as [x ->]. apply strip_idem.
Qed.

Lemma clean_command_output_fixpoint_witness :
  clean_command_output "  docker ps -a " = PyStr.strip "  docker ps -a "
  /\ clean_command_output
       (clean_command_output ("```bash" ++ nl ++ "ls -la" ++ nl ++ "```"))
     = clean_command_output ("```bash" ++ nl ++ "ls -la" ++ nl ++ "```").
Proof.
  split.
  - apply (proj1 (clean_command_output_fixpoint "  docker ps -a "));
      reflexivity.
  - apply (proj2 (clean_command_output_fixpoint
                    ("```bash" ++ nl ++ "ls -la" ++ nl ++ "```")));
      reflexivity.
Defined.

(** ** Running a command *)

(** C10 (as stated, refuted): a command that exits with a non-zero
    status and writes nothing to stderr yields an empty
    [command_error]. *)
Lemma silent_failure_has_empty_error :
  let r := execute_shell_command (fun _ _ => Completed 1 "" "") "false" 30 in
  u_command_error r = Some ""
  /\ ~ (exists e, u_command_error r = Some e /\ PyStr.truthy e = true).
Proof.
  split; [reflexivity|]. intros (e & He & Ht). cbn in He.
  inversion He; subst. discriminate.
Qed.

(** C10 (amended): for every command and timeout the function returns a
    dictionary with exactly the keys [command_output], [command_error]
    and [execution_approved], the last one [True]; a timeout and any
    other exception give a non-empty [command_error]; a non-zero exit
    gives the captured stderr as [command_error], which may be empty. *)
Theorem execute_shell_command_total
    (run : string -> Z -> ProcResult) (command : string) (timeout : Z) :
  exists out err,
    execute_shell_command run command timeout = execution_result out err true
    /\ match run command timeout with
       | Completed rc stdout stderr =>
           out = stdout /\ err = (if rc =? 0 then "" else stderr)
       | TimeoutExpired | Raised _ => out = "" /\ PyStr.truthy err = true
       end.
Proof.
  unfold execute_shell_command.
  destruct (run command timeout) as [rc o e| |e].
  - destruct (rc =? 0); eauto.
  - eauto.
  - eauto.
Qed.

(** ** The retry bound *)

Section RetryBound.

Variable env : Env.

Lemma start_reach prompt o ck w :
  start env (initial_state prompt) world0 = (o, ck, w) ->
  reach env prompt ck w.
Proof.
  intros H. unfold start in H.
  eapply pregel_reach; [apply reach_start|exact H].
Qed.

Lemma decide_all_cons v vs o ck w :
  decide_all env (v :: vs) (o, ck, w)
  = decide_all env vs (resume_with env v ck w).
Proof. reflexivity. Qed.

Lemma decide_all_nil r : decide_all env [] r = r.
Proof. reflexivity. Qed.

Lemma decide_all_reach prompt vs : forall o ck w o' ck' w',
  reach env prompt ck w ->
  decide_all env vs (o, ck, w) = (o', ck', w') ->
  reach env prompt ck' w'.
Proof.
  induction vs as [|v vs IH]; intros o ck w o' ck' w' Hr Hd.
  - inversion Hd; now subst.
  - rewrite decide_all_cons in Hd.
    destruct (resume_with env v ck w) as [[o1 ck1] w1] eqn:H1.
    apply (IH o1 ck1 w1 o' ck' w'); [|exact Hd].
    unfold resume_with in H1.
    eapply pregel_reach; [exact Hr|exact H1].
Qed.

Lemma resume_approve st w :
  resume_with env "approve" (mkCheckpoint st human_approval) w
  = let st' := after_execute env st w in
    if retry_offered st'
    then (Suspended [ask_retry st'], mkCheckpoint st' check_result,
          ran (generated_command st) w)
    else (Finished, mkCheckpoint st' END, ran (generated_command st) w).
Proof. unfold resume_with, recursion_limit. apply pregel_approve. Qed.

Lemma resume_retry st w :
  retry_offered st = true ->
  resume_with env "retry" (mkCheckpoint st check_result) w
  = (Suspended [ask_approval (after_retry env st w)],
     mkCheckpoint (after_retry env st w) human_approval, called_llm w).
Proof. unfold resume_with, recursion_limit. apply pregel_retry. Qed.

Lemma after_execute_fields st w :
  exists out err,
    execute_shell_command (subprocess_run env (List.length (executed w)))
      (generated_command st) default_timeout = execution_result out err true
    /\ after_execute env st w
       = mkState (messages st) (user_prompt st) (generated_command st)
                 out err true (retry_count st).
Proof.
  destruct (execute_shell_command_shape
              (subprocess_run env (List.length (executed w)))
              (generated_command st) default_timeout) as (o & e & He).
  exists o, e. split; [exact He|].
  unfold after_execute, execute_command_node. cbn [apply_update generated_command
    u_generated_command default from_option].
  rewrite He. reflexivity.
Qed.

End RetryBound.

(** C2: in every state a session can reach, [retry_count] is at most 3;
    and when the command approved at [retry_count = 3] is executed, the
    run ends at [END] whatever the execution gave, with the error of
    that execution kept in [command_error] and no retry request
    raised. *)
Theorem retry_count_capped (env : Env) (prompt : string)
    (ck : Checkpoint) (w : World) :
  reach env prompt ck w ->
  retry_count (values ck) <= 3
  /\ (retry_count (values ck) = 3 -> next ck = human_approval ->
      exists out err st',
        execute_shell_command (subprocess_run env (List.length (executed w)))
          (generated_command (values ck)) default_timeout
        = execution_result out err true
        /\ resume_with env "approve" ck w
           = (Finished, mkCheckpoint st' END,
              ran (generated_command (values ck)) w)
        /\ command_error st' = err
        /\ retry_count st' = 3).
Proof.
  intros Hreach. split.
  - apply (reach_retry_count env prompt ck w Hreach).
  - intros H3 Hn. destruct ck as [st n]. cbn [values next] in *. subst n.
    destruct (after_execute_fields env st w) as (o & e & He & Hst).
    exists o, e, (after_execute env st w). split; [exact He|].
    rewrite resume_approve. cbv zeta. unfold retry_offered.
    rewrite Hst. cbn [command_error retry_count]. rewrite H3.
    rewrite andb_false_r. auto.
Qed.


Lemma retry_count_capped_witness :
  let '(_, ck, w) :=
    decide_all env_failing
      ["approve"; "retry"; "approve"; "retry"; "approve"; "retry"]
      (first_approval env_failing "list files") in
  retry_count (values ck) <= 3
  /\ (retry_count (values ck) = 3 -> next ck = human_approval ->
      exists out err st',
        execute_shell_command
          (subprocess_run env_failing (List.length (executed w)))
          (generated_command (values ck)) default_timeout
        = execution_result out err true
        /\ resume_with env_failing "approve" ck w
           = (Finished, mkCheckpoint st' END,
              ran (generated_command (values ck)) w)
        /\ command_error st' = err
        /\ retry_count st' = 3).
Proof.
  destruct (decide_all env_failing
              ["approve"; "retry"; "approve"; "retry"; "approve"; "retry"]
              (first_approval env_failing "list files"))
    as [[o ck] w] eqn:Hd.
  apply (retry_count_capped env_failing "list files" ck w).
  unfold first_approval in Hd.
  destruct (start env_failing (initial_state "list files") world0)
    as [[o0 ck0] w0] eqn:Hs.
  eapply decide_all_reach; [|exact Hd].
  eapply start_reach; exact Hs.
Defined.

Example three_retries_reach_the_cap :
  let '(o, ck, w) :=
    decide_all env_failing
      ["approve"; "retry"; "approve"; "retry"; "approve"; "retry"]
      (first_approval env_failing "list files") in
  retry_count (values ck) = 3 /\ next ck = human_approval
  /\ executed w = ["ls /nonexistent"; "ls /nonexistent"; "ls /nonexistent"].
Proof. vm_compute. auto. Qed.

(** ** Exhausting the retries *)

Section Exhaustion.

Variable env : Env.

Lemma retry_count_after_generate st w :
  retry_count (after_generate env st w) = retry_count st.
Proof. reflexivity. Qed.

Lemma retry_count_after_execute st w :
  retry_count (after_execute env st w) = retry_count st.
Proof.
  destruct (after_execute_fields env st w) as (o & e & _ & ->). reflexivity.
Qed.

Lemma retry_count_after_retry st w :
  retry_count (after_retry env st w) = retry_count st + 1.
Proof. reflexivity. Qed.

Lemma command_error_after_execute st w :
  always_fails env -> PyStr.truthy (command_error (after_execute env st w)) = true.
Proof.
  intros Hf.
  specialize (Hf (List.length (executed w)) (generated_command st) default_timeout).
  unfold execution_fails in Hf.
  destruct (after_execute_fields env st w) as (o & e & He & ->).
  rewrite He in Hf. exact Hf.
Qed.

Lemma first_approval_eq prompt :
  first_approval env prompt
  = (Suspended [ask_approval (after_generate env (initial_state prompt) world0)],
     mkCheckpoint (after_generate env (initial_state prompt) world0)
                  human_approval,
     called_llm world0).
Proof. unfold first_approval, start, recursion_limit. apply pregel_generate. Qed.

Lemma approve_then_fail st w :
  always_fails env -> retry_count st < 3 ->
  resume_with env "approve" (mkCheckpoint st human_approval) w
  = (Suspended [ask_retry (after_execute env st w)],
     mkCheckpoint (after_execute env st w) check_result,
     ran (generated_command st) w)
  /\ retry_offered (after_execute env st w) = true.
Proof.
  intros Hf Hlt.
  assert (Ho : retry_offered (after_execute env st w) = true).
  { unfold retry_offered. rewrite command_error_after_execute by exact Hf.
    rewrite retry_count_after_execute. apply Z.ltb_lt in Hlt. now rewrite Hlt. }
  split; [|exact Ho]. rewrite resume_approve. cbv zeta. now rewrite Ho.
Qed.

Lemma approve_at_cap st w :
  3 <= retry_count st ->
  resume_with env "approve" (mkCheckpoint st human_approval) w
  = (Finished, mkCheckpoint (after_execute env st w) END,
     ran (generated_command st) w).
Proof.
  intros Hge. rewrite resume_approve. cbv zeta. unfold retry_offered.
  rewrite retry_count_after_execute.
  apply Z.ltb_ge in Hge. rewrite Hge. now rewrite andb_false_r.
Qed.

(** One round of the failing scenario: approve, fail, accept the retry. *)
Lemma failing_round st w o :
  always_fails env -> retry_count st < 3 ->
  exists st' w',
    decide_all env ["approve"; "retry"] (o, mkCheckpoint st human_approval, w)
    = (Suspended [ask_approval st'], mkCheckpoint st' human_approval, w')
    /\ retry_count st' = retry_count st + 1
    /\ List.length (executed w') = S (List.length (executed w)).
Proof.
  intros Hf Hlt.
  destruct (approve_then_fail st w Hf Hlt) as [Ha Ho].
  eexists _, _. split; [|split].
  - rewrite decide_all_cons, Ha, decide_all_cons.
    rewrite (resume_retry env _ _ Ho). reflexivity.
  - now rewrite retry_count_after_retry, retry_count_after_execute.
  - cbn. rewrite length_app. cbn. lia.
Qed.

Lemma decide_all_app vs1 vs2 r :
  decide_all env (vs1 ++ vs2) r = decide_all env vs2 (decide_all env vs1 r).
Proof.
  revert r. induction vs1 as [|v vs1 IH]; intros r; [reflexivity|].
  cbn [app decide_all]. apply IH.
Qed.

End Exhaustion.

(** C3 (as stated, refuted): with every command approved, every retry
    accepted and every execution failing, the third failure still
    raises a retry request; the session is suspended, not finished. *)
Lemma third_failure_offers_retry :
  let '(o, ck, w) :=
    decide_all env_failing
      ["approve"; "retry"; "approve"; "retry"; "approve"]
      (first_approval env_failing "list files") in
  o = Suspended [ask_retry (values ck)]
  /\ o <> Finished
  /\ next ck = check_result
  /\ retry_count (values ck) = 2
  /\ payload_options (ask_retry (values ck)) = ["retry"; "stop"]
  /\ executed w = ["ls /nonexistent"; "ls /nonexistent"; "ls /nonexistent"].
Proof. vm_compute. repeat split; congruence. Qed.

(** C3 (amended): with every command approved, every retry accepted and
    every execution failing, each of the first three failures raises a
    retry request, and the fourth failure (the one after the third
    retry) ends the run with [success = false] and no further request. *)
Theorem fourth_failure_ends_session (env : Env) (prompt : string) :
  always_fails env ->
  let s3 :=
    decide_all env ["approve"; "retry"; "approve"; "retry"; "approve"]
               (first_approval env prompt) in
  let s4 := decide_all env ["retry"; "approve"] s3 in
  (exists st w,
      s3 = (Suspended [ask_retry st], mkCheckpoint st check_result, w)
      /\ retry_count st = 2 /\ List.length (executed w) = 3%nat)
  /\ (exists st w,
         s4 = (Finished, mkCheckpoint st END, w)
         /\ retry_count st = 3
         /\ PyStr.truthy (command_error st) = true
         /\ List.length (executed w) = 4%nat
         /\ forall c sv, c ∈ clients sv ->
              sent (send_command_output c st sv)
              = (sent sv ++ [(c, failure_message st)])%list).
Proof.
  intros Hf. cbv zeta.
  rewrite first_approval_eq.
  change ["approve"; "retry"; "approve"; "retry"; "approve"]
    with (["approve"; "retry"] ++ ["approve"; "retry"] ++ ["approve"])%list.
  rewrite !decide_all_app.
  assert (R0 : retry_count (after_generate env (initial_state prompt) world0) = 0)
    by reflexivity.
  destruct (failing_round env (after_generate env (initial_state prompt) world0)
              (called_llm world0)
              (Suspended [ask_approval
                            (after_generate env (initial_state prompt) world0)])
              Hf ltac:(rewrite R0; lia))
    as (st1 & w1 & E1 & R1 & X1).
  rewrite E1.
  destruct (failing_round env st1 w1 (Suspended [ask_approval st1]) Hf
              ltac:(rewrite R1; cbn; lia)) as (st2 & w2 & E2 & R2 & X2).
  rewrite E2.
  assert (H2 : retry_count st2 = 2) by (rewrite R2, R1; reflexivity).
  assert (Hw2 : List.length (executed w2) = 2%nat) by (rewrite X2, X1; reflexivity).
  destruct (approve_then_fail env st2 w2 Hf ltac:(lia)) as [Ha Ho].
  rewrite (decide_all_cons env "approve" []), Ha, decide_all_nil.
  split.
  - eexists _, _. split; [reflexivity|]. split.
    + now rewrite retry_count_after_execute.
    + cbn. rewrite length_app, Hw2. reflexivity.
  - rewrite decide_all_cons, (resume_retry env _ _ Ho), decide_all_cons.
    rewrite decide_all_nil, approve_at_cap
      by (rewrite retry_count_after_retry, retry_count_after_execute; lia).
    eexists _, _. split; [reflexivity|]. repeat split.
    + rewrite retry_count_after_execute, retry_count_after_retry,
        retry_count_after_execute. lia.
    + apply (command_error_after_execute env _ _ Hf).
    + cbn. rewrite !length_app, Hw2. reflexivity.
    + intros c sv Hc. unfold send_command_output.
      rewrite (command_error_after_execute env _ _ Hf).
      unfold send_message. rewrite decide_True by exact Hc. reflexivity.
Qed.

Lemma env_failing_always_fails : always_fails env_failing.
Proof. intros n c t. reflexivity. Qed.

Lemma fourth_failure_ends_session_witness :
  let s3 :=
    decide_all env_failing ["approve"; "retry"; "approve"; "retry"; "approve"]
               (first_approval env_failing "list files") in
  let s4 := decide_all env_failing ["retry"; "approve"] s3 in
  (exists st w,
      s3 = (Suspended [ask_retry st], mkCheckpoint st check_result, w)
      /\ retry_count st = 2 /\ List.length (executed w) = 3%nat)
  /\ (exists st w,
         s4 = (Finished, mkCheckpoint st END, w)
         /\ retry_count st = 3
         /\ PyStr.truthy (command_error st) = true
         /\ List.length (executed w) = 4%nat
         /\ forall c sv, c ∈ clients sv ->
              sent (send_command_output c st sv)
              = (sent sv ++ [(c, failure_message st)])%list).
Proof.
  apply (fourth_failure_ends_session env_failing "list files").
  intros n c t. reflexivity.
Defined.

(** ** The command that gets executed *)

(** C6 (as stated, refuted): when the model answers with an empty fenced
    block, the cleaned command is empty, and approving it takes the
    session to [execute_command] with an empty [generated_command]. *)
Lemma empty_command_reaches_execution :
  exists ck w,
    reach env_empty_answer "list files" ck w
    /\ next ck = execute_command
    /\ generated_command (values ck) = "".
Proof.
  destruct (first_approval env_empty_answer "list files") as [[o ck0] w0] eqn:Hs.
  pose proof (start_reach env_empty_answer "list files" o ck0 w0 Hs) as Hr.
  rewrite first_approval_eq in Hs. inversion Hs; subst; clear Hs.
  eexists _, _. split; [|split].
  - eapply (reach_step _ _ (Some "approve")); [exact Hr|].
    vm_compute. reflexivity.
  - reflexivity.
  - reflexivity.
Qed.

(** C6 (amended): whenever a session enters [execute_command], its
    [generated_command] is the cleaned text of an answer of the model;
    so it is non-empty when no answer of the model cleans to the empty
    string, and the code adds no check of its own. *)
Theorem executed_command_is_cleaned_answer (env : Env) (prompt : string)
    (ck : Checkpoint) (w : World) :
  reach env prompt ck w ->
  next ck = execute_command ->
  (exists n msgs,
      generated_command (values ck) = clean_command_output (llm_invoke env n msgs))
  /\ ((forall n msgs, clean_command_output (llm_invoke env n msgs) <> "") ->
      generated_command (values ck) <> "").
Proof.
  intros Hr Hn.
  destruct (reach_generated env prompt ck w Hr) as [Hg|(n & msgs & Hg)].
  - rewrite Hn in Hg. discriminate.
  - split; [eauto|]. intros Hne. rewrite Hg. apply Hne.
Qed.

Lemma executed_command_is_cleaned_answer_witness :
  exists ck w,
    reach env_failing "list files" ck w
    /\ next ck = execute_command
    /\ (exists n msgs,
           generated_command (values ck)
           = clean_command_output (llm_invoke env_failing n msgs))
    /\ ((forall n msgs, clean_command_output (llm_invoke env_failing n msgs) <> "") ->
        generated_command (values ck) <> "").
Proof.
  destruct (first_approval env_failing "list files") as [[o ck0] w0] eqn:Hs.
  pose proof (start_reach env_failing "list files" o ck0 w0 Hs) as Hr.
  rewrite first_approval_eq in Hs. inversion Hs; subst; clear Hs.
  assert (Hr' : reach env_failing "list files"
                  (mkCheckpoint
                     (apply_update (mkUpdate None None None None (Some true) None)
                        (after_generate env_failing (initial_state "list files")
                           world0))
                     execute_command)
                  (called_llm world0)).
  { eapply (reach_step _ _ (Some "approve")); [exact Hr|]. reflexivity. }
  eexists _, _. split; [exact Hr'|]. split; [reflexivity|].
  apply (executed_command_is_cleaned_answer env_failing "list files" _ _ Hr').
  reflexivity.
Defined.

(** ** Cancelling *)

Lemma decide_all_finished (env : Env) vs st w :
  decide_all env vs (Finished, mkCheckpoint st END, w)
  = (Finished, mkCheckpoint st END, w).
Proof.
  induction vs as [|v vs IH]; [reflexivity|].
  rewrite decide_all_cons. unfold resume_with. rewrite pregel_end. exact IH.
Qed.

(** C8: at the approval point the decision [cancel] ends the run without
    running [execute_command_node]: the state and the list of executed
    commands are untouched, and they stay so whatever decisions are
    submitted to the session afterwards. *)
Theorem cancel_never_executes (env : Env) (st : AgentState) (w : World)
    (later : list string) :
  resume_with env "cancel" (mkCheckpoint st human_approval) w
  = (Finished, mkCheckpoint st END, w)
  /\ decide_all env ("cancel" :: later)
       (Suspended [ask_approval st], mkCheckpoint st human_approval, w)
     = (Finished, mkCheckpoint st END, w)
  /\ executed
       (snd (decide_all env ("cancel" :: later)
               (Suspended [ask_approval st], mkCheckpoint st human_approval, w)))
     = executed w.
Proof.
  assert (Hc : resume_with env "cancel" (mkCheckpoint st human_approval) w
               = (Finished, mkCheckpoint st END, w)).
  { unfold resume_with, recursion_limit. apply pregel_approval_else; discriminate. }
  assert (Hd : decide_all env ("cancel" :: later)
                 (Suspended [ask_approval st], mkCheckpoint st human_approval, w)
               = (Finished, mkCheckpoint st END, w)).
  { rewrite decide_all_cons, Hc. apply decide_all_finished. }
  split; [exact Hc|]. split; [exact Hd|]. now rewrite Hd.
Qed.

(** ** Decisions that are not among the options *)

Lemma send_error_only (client_id content : string) (sv : AgentServer) :
  only_an_error_sent client_id sv (send_message client_id "error" content [] sv).
Proof.
  unfold only_an_error_sent, send_message.
  destruct (decide (client_id ∈ clients sv)) as [Hin|Hout]; cbn.
  - repeat split; eauto.
  - repeat split; tauto.
Qed.

(** C1 (as stated, refuted): a decision that is not among the options of
    the approval request is not rejected; the session moves to [END]. *)
Lemma invalid_decision_ends_session :
  let st := after_generate env_failing (initial_state "list files") world0 in
  let ck := mkCheckpoint st human_approval in
  ~ In "maybe" (payload_options (ask_approval st))
  /\ resume_with env_failing "maybe" ck (called_llm world0)
     = (Finished, mkCheckpoint st END, called_llm world0)
  /\ snd (fst (resume_with env_failing "maybe" ck (called_llm world0))) <> ck.
Proof.
  cbv zeta. split; [|split].
  - cbn. intros [H|[H|[H|[]]]]; discriminate.
  - unfold resume_with, recursion_limit. apply pregel_approval_else; discriminate.
  - unfold resume_with, recursion_limit.
    rewrite pregel_approval_else by discriminate. cbn. discriminate.
Qed.

(** C1 (amended): the graph does not validate decisions.  At the
    approval point every decision other than [approve] and [reject]
    ends the run as [cancel] does, and at the retry point every decision
    other than [retry] ends it, the state values unchanged and no error
    raised.  The server refuses an approval or a retry response when the
    client has no session or its session is not waiting for that kind of
    response: it sends one [error] message and changes nothing else. *)
Theorem unlisted_decision_ends_run (env : Env) (st : AgentState) (w : World)
    (v client_id : string) (b : bool) (sv : AgentServer) :
  (v <> "approve" -> v <> "reject" ->
   resume_with env v (mkCheckpoint st human_approval) w
   = (Finished, mkCheckpoint st END, w))
  /\ (v <> "retry" ->
      resume_with env v (mkCheckpoint st check_result) w
      = (Finished, mkCheckpoint st END, w))
  /\ (not_waiting_for "approval" client_id sv ->
      only_an_error_sent client_id sv
        (handle_approval_response env client_id b sv))
  /\ (not_waiting_for "retry" client_id sv ->
      only_an_error_sent client_id sv
        (handle_retry_response env client_id b sv)).
Proof.
  unfold resume_with, recursion_limit. split; [|split; [|split]].
  - intros Ha Hr. now apply pregel_approval_else.
  - intros Hr. now apply pregel_retry_else.
  - unfold not_waiting_for, handle_approval_response.
    destruct (active_sessions sv !! client_id) as [s|]; [|intros _; apply send_error_only].
    intros [Hw|Hk].
    + rewrite Hw. cbn [negb orb]. apply send_error_only.
    + rewrite bool_decide_eq_false_2 by exact Hk.
      cbn [negb]. rewrite orb_true_r. apply send_error_only.
  - unfold not_waiting_for, handle_retry_response.
    destruct (active_sessions sv !! client_id) as [s|]; [|intros _; apply send_error_only].
    intros [Hw|Hk].
    + rewrite Hw. cbn [negb orb]. apply send_error_only.
    + rewrite bool_decide_eq_false_2 by exact Hk.
      cbn [negb]. rewrite orb_true_r. apply send_error_only.
Qed.

Lemma unlisted_decision_ends_run_witness :
  let st := after_generate env_failing (initial_state "list files") world0 in
  resume_with env_failing "maybe" (mkCheckpoint st human_approval) world0
  = (Finished, mkCheckpoint st END, world0)
  /\ resume_with env_failing "maybe" (mkCheckpoint st check_result) world0
     = (Finished, mkCheckpoint st END, world0)
  /\ only_an_error_sent "client-1" idle_server
       (handle_approval_response env_failing "client-1" true idle_server)
  /\ only_an_error_sent "client-1" idle_server
       (handle_retry_response env_failing "client-1" true idle_server).
Proof.
  cbv zeta.
  pose proof (unlisted_decision_ends_run env_failing
                (after_generate env_failing (initial_state "list files") world0)
                world0 "maybe" "client-1" true idle_server)
    as (H1 & H2 & H3 & H4).
  split; [apply H1; discriminate|].
  split; [apply H2; discriminate|].
  split; [apply H3; exact I|apply H4; exact I].
Defined.

(** ** What the engine makes of an execution *)

Section ExecutionOutcome.

Variable env : Env.

Lemma after_execute_completed st w rc out err :
  subprocess_run env (List.length (executed w)) (generated_command st)
    default_timeout = Completed rc out err ->
  after_execute env st w
  = mkState (messages st) (user_prompt st) (generated_command st)
            out (if rc =? 0 then "" else err) true (retry_count st).
Proof.
  intros Hrun. unfold after_execute, execute_command_node, execute_shell_command.
  cbn [apply_update generated_command u_generated_command default from_option].
  rewrite Hrun. destruct (rc =? 0); reflexivity.
Qed.

Lemma after_execute_timeout st w :
  subprocess_run env (List.length (executed w)) (generated_command st)
    default_timeout = TimeoutExpired ->
  after_execute env st w
  = mkState (messages st) (user_prompt st) (generated_command st)
            "" "Command timed out after 30 seconds" true (retry_count st).
Proof.
  intros Hrun. unfold after_execute, execute_command_node, execute_shell_command.
  cbn [apply_update generated_command u_generated_command default from_option].
  rewrite Hrun. reflexivity.
Qed.

Lemma send_command_output_sent c st sv :
  c ∈ clients sv ->
  sent (send_command_output c st sv)
  = (sent sv ++ [(c, if PyStr.truthy (command_error st)
                     then failure_message st else success_message st)])%list.
Proof.
  intros Hc. unfold send_command_output, send_message.
  destruct (PyStr.truthy (command_error st)); now rewrite decide_True by exact Hc.
Qed.

End ExecutionOutcome.

(** C5: when the approved command completes before the timeout, the
    state holds its stdout, and holds an empty error for exit code 0 and
    its stderr otherwise.  If that [command_error] is non-empty the
    engine raises a retry request (while [retry_count < 3]) or ends the
    run with a [success = false] message; if it is empty the run ends
    with [success = true]. *)
Theorem completed_execution_outcome (env : Env) (st : AgentState) (w : World)
    (rc : Z) (out err c : string) (sv : AgentServer) :
  subprocess_run env (List.length (executed w)) (generated_command st)
    default_timeout = Completed rc out err ->
  c ∈ clients sv ->
  let st' := after_execute env st w in
  let w' := ran (generated_command st) w in
  let r := resume_with env "approve" (mkCheckpoint st human_approval) w in
  command_output st' = out
  /\ command_error st' = (if rc =? 0 then "" else err)
  /\ execution_approved st' = true
  /\ (command_error st' <> "" ->
      (retry_count st < 3
       /\ r = (Suspended [ask_retry st'], mkCheckpoint st' check_result, w'))
      \/ (3 <= retry_count st
          /\ r = (Finished, mkCheckpoint st' END, w')
          /\ sent (send_command_output c st' sv)
             = (sent sv ++ [(c, failure_message st')])%list))
  /\ (command_error st' = "" ->
      r = (Finished, mkCheckpoint st' END, w')
      /\ sent (send_command_output c st' sv)
         = (sent sv ++ [(c, success_message st')])%list).
Proof.
  intros Hrun Hc. cbv zeta.
  rewrite resume_approve. cbv zeta. unfold retry_offered.
  rewrite (send_command_output_sent c _ sv Hc).
  rewrite (after_execute_completed env st w rc out err Hrun).
  cbn [command_output command_error execution_approved retry_count].
  split; [reflexivity|]. split; [reflexivity|]. split; [reflexivity|].
  destruct (if rc =? 0 then "" else err) as [|a e'] eqn:He; cbn [PyStr.truthy andb].
  - split; [congruence|]. intros _. split; reflexivity.
  - split; [|discriminate]. intros _.
    destruct (retry_count st <? 3) eqn:Hlt.
    + left. apply Z.ltb_lt in Hlt. split; [exact Hlt|reflexivity].
    + right. apply Z.ltb_ge in Hlt. repeat split. exact Hlt.
Qed.

Lemma completed_execution_outcome_witness :
  let st := after_generate env_failing (initial_state "list files") world0 in
  let w := called_llm world0 in
  let st' := after_execute env_failing st w in
  let w' := ran (generated_command st) w in
  let r := resume_with env_failing "approve" (mkCheckpoint st human_approval) w in
  command_output st' = ""
  /\ command_error st' = "ls: cannot access"
  /\ execution_approved st' = true
  /\ (command_error st' <> "" ->
      (retry_count st < 3
       /\ r = (Suspended [ask_retry st'], mkCheckpoint st' check_result, w'))
      \/ (3 <= retry_count st
          /\ r = (Finished, mkCheckpoint st' END, w')
          /\ sent (send_command_output "client-1" st' idle_server)
             = (sent idle_server ++ [("client-1", failure_message st')])%list))
  /\ (command_error st' = "" ->
      r = (Finished, mkCheckpoint st' END, w')
      /\ sent (send_command_output "client-1" st' idle_server)
         = (sent idle_server ++ [("client-1", success_message st')])%list).
Proof.
  apply (completed_execution_outcome env_failing
           (after_generate env_failing (initial_state "list files") world0)
           (called_llm world0) 2 "" "ls: cannot access" "client-1" idle_server).
  - reflexivity.
  - vm_compute. reflexivity.
Defined.

(** C7: when the approved command runs into the timeout, the state gets
    an empty output and the fixed message as error; the run does not end
    for that reason: while [retry_count < 3] it is suspended on the
    retry request that any failed execution raises, and accepting the
    retry leads to a new approval request. *)
Theorem timeout_feeds_retry_decision (env : Env) (st : AgentState) (w : World) :
  subprocess_run env (List.length (executed w)) (generated_command st)
    default_timeout = TimeoutExpired ->
  let st' :=
    mkState (messages st) (user_prompt st) (generated_command st)
            "" "Command timed out after 30 seconds" true (retry_count st) in
  let w' := ran (generated_command st) w in
  execute_shell_command (subprocess_run env (List.length (executed w)))
    (generated_command st) default_timeout
  = execution_result "" "Command timed out after 30 seconds" true
  /\ resume_with env "approve" (mkCheckpoint st human_approval) w
     = (if retry_count st <? 3
        then (Suspended [ask_retry st'], mkCheckpoint st' check_result, w')
        else (Finished, mkCheckpoint st' END, w'))
  /\ (retry_count st < 3 ->
      resume_with env "retry" (mkCheckpoint st' check_result) w'
      = (Suspended [ask_approval (after_retry env st' w')],
         mkCheckpoint (after_retry env st' w') human_approval, called_llm w')).
Proof.
  intros Hrun. cbv zeta. split; [|split].
  - unfold execute_shell_command. rewrite Hrun. reflexivity.
  - rewrite resume_approve. cbv zeta. unfold retry_offered.
    rewrite (after_execute_timeout env st w Hrun).
    cbn [command_error retry_count PyStr.truthy andb]. reflexivity.
  - intros Hlt. apply resume_retry. unfold retry_offered.
    cbn [command_error retry_count PyStr.truthy andb].
    now apply Z.ltb_lt.
Qed.

(** The timeout message for any timeout value. *)
Lemma execute_shell_command_timeout run command timeout :
  run command timeout = TimeoutExpired ->
  execute_shell_command run command timeout
  = execution_result ""
      ("Command timed out after " ++ PyStr.str_of_int timeout ++ " seconds") true.
Proof. intros H. unfold execute_shell_command. now rewrite H. Qed.

Lemma timeout_feeds_retry_decision_witness :
  let st := after_generate env_timeout (initial_state "list files") world0 in
  let w := called_llm world0 in
  let st' :=
    mkState (messages st) (user_prompt st) (generated_command st)
            "" "Command timed out after 30 seconds" true (retry_count st) in
  let w' := ran (generated_command st) w in
  execute_shell_command (subprocess_run env_timeout (List.length (executed w)))
    (generated_command st) default_timeout
  = execution_result "" "Command timed out after 30 seconds" true
  /\ resume_with env_timeout "approve" (mkCheckpoint st human_approval) w
     = (if retry_count st <? 3
        then (Suspended [ask_retry st'], mkCheckpoint st' check_result, w')
        else (Finished, mkCheckpoint st' END, w'))
  /\ (retry_count st < 3 ->
      resume_with env_timeout "retry" (mkCheckpoint st' check_result) w'
      = (Suspended [ask_approval (after_retry env_timeout st' w')],
         mkCheckpoint (after_retry env_timeout st' w') human_approval,
         called_llm w')).
Proof.
  apply (timeout_feeds_retry_decision env_timeout
           (after_generate env_timeout (initial_state "list files") world0)
           (called_llm world0)).
  reflexivity.
Defined.

(** ** Session identifiers *)

Lemma append_inj_l (p a b : string) : p ++ a = p ++ b -> a = b.
Proof.
  induction p as [|c p IH]; cbn; intros H; [exact H|].
  inversion H. now apply IH.
Qed.

(** The server derives the thread id from a fresh [uuid4()]: two
    sessions of one client get different ids when the two UUIDs differ. *)
Lemma server_thread_ids_distinct (env : Env) (client_id : string) (n m : nat) :
  uuid4 env n <> uuid4 env m ->
  "session_" ++ client_id ++ "_" ++ uuid4 env n
  <> "session_" ++ client_id ++ "_" ++ uuid4 env m.
Proof.
  intros Hne Heq. apply Hne.
  apply (append_inj_l "_"), (append_inj_l client_id), (append_inj_l "session_").
  exact Heq.
Qed.

(** C9 (the command-line loop): the thread id is computed from the
    prompt alone, so two sessions started with the same prompt get the
    same identifier; the second one overwrites the checkpoint of the
    first and starts from its messages. *)
Theorem cli_same_prompt_shares_thread (env : Env) (user_input : string)
    (mem : gmap string Checkpoint) (w : World) :
  let tid := cli_thread_id env user_input in
  exists o1 ck1 w1 o2 ck2 w2,
    cli_start env user_input mem w = Some (o1, <[tid := ck1]> mem, w1)
    /\ cli_start env user_input (<[tid := ck1]> mem) w1
       = Some (o2, <[tid := ck2]> mem, w2)
    /\ messages (values ck2)
       = (messages (values ck1)
          ++ [get_command_generation_prompt; HumanMessage user_input;
              AIMessage (llm_invoke env (llm_calls w1)
                           [get_command_generation_prompt;
                            HumanMessage user_input])])%list.
Proof.
  cbv zeta. unfold cli_start, invoke, start, recursion_limit.
  rewrite pregel_generate. eexists _, _, _.
  rewrite lookup_insert_eq, pregel_generate, insert_insert_eq.
  eexists _, _, _. split; [reflexivity|]. split; [reflexivity|].
  cbn. now rewrite app_nil_r.
Qed.

Example cli_same_prompt_same_id :
  cli_thread_id env_failing "list files" = "session_10"
  /\ match cli_start env_failing "list files" ∅ world0 with
     | Some (_, mem1, w1) =>
         match cli_start env_failing "list files" mem1 w1 with
         | Some (_, mem2, _) =>
             (size mem1, stored_messages "session_10" mem1,
              size mem2, stored_messages "session_10" mem2)
             = (1%nat, Some 3%nat, 1%nat, Some 6%nat)
         | None => False
         end
     | None => False
     end.
Proof. split; vm_compute; reflexivity. Qed.

(** ** The server, end to end *)

(** A failing run through the server: three retry requests, then the
    final message, after which the session is gone and a late response
    is answered with an error. *)
Example server_failing_run :
  let sv :=
    serve env_failing "client-1" "list files"
      [inl true; inr true; inl true; inr true; inl true; inr true; inl true;
       inr true]
      idle_server in
  sent_types sv
  = ["command_approval"; "retry_request"; "command_approval"; "retry_request";
     "command_approval"; "retry_request"; "command_approval"; "command_output";
     "error"]
  /\ last (sent sv)
     = Some ("client-1", mkOut "error" "No active session found" [])
  /\ active_sessions sv = ∅
  /\ executed (world sv)
     = ["ls /nonexistent"; "ls /nonexistent"; "ls /nonexistent";
        "ls /nonexistent"].
Proof. vm_compute. repeat split. Qed.

(** Through the server an approval response is a boolean: [False] asks
    for another command, and nothing is executed. *)
Example server_reject_regenerates :
  let sv := serve env_failing "client-1" "list files" [inl false] idle_server in
  sent_types sv = ["command_approval"; "command_approval"]
  /\ executed (world sv) = [] /\ llm_calls (world sv) = 2%nat.
Proof. vm_compute. repeat split. Qed.

(** * Further properties *)

(** ** The run loop from any node *)

Section RunLoop.

Variable env : Env.

Lemma pregel_execute n r st w :
  pregel env (S (S n)) r (mkCheckpoint st execute_command) w
  = let st' :=
      apply_update
        (execute_command_node (subprocess_run env (List.length (executed w))) st)
        st in
    if retry_offered st'
    then (Suspended [ask_retry st'], mkCheckpoint st' check_result,
          ran (generated_command st) w)
    else (Finished, mkCheckpoint st' END, ran (generated_command st) w).
Proof.
  cbn [pregel next is_end superstep run_node values edge].
  unfold check_result_node, retry_offered. cbv zeta.
  destruct (PyStr.truthy _ && _); [reflexivity|].
  rewrite apply_no_update. destruct n; reflexivity.
Qed.

Lemma pregel_retry_command n r st w :
  pregel env (S (S n)) r (mkCheckpoint st retry_command) w
  = (Suspended
       [ask_approval
          (apply_update (retry_command_node (llm_invoke env (llm_calls w)) st) st)],
     mkCheckpoint
       (apply_update (retry_command_node (llm_invoke env (llm_calls w)) st) st)
       human_approval,
     called_llm w).
Proof. reflexivity. Qed.

(** Three steps are enough for any call. *)
Lemma pregel_three k r ck w :
  pregel env (S (S (S k))) r ck w = pregel env 3 r ck w.
Proof.
  destruct ck as [st nd]. destruct nd.
  - now rewrite !pregel_generate.
  - destruct r as [v|]; [|now rewrite !pregel_ask_approval].
    destruct (String.eqb_spec v "approve") as [->|Ha];
      [now rewrite !pregel_approve|].
    destruct (String.eqb_spec v "reject") as [->|Hr];
      [now rewrite !pregel_reject|].
    now rewrite !pregel_approval_else.
  - now rewrite !pregel_execute.
  - destruct (retry_offered st) eqn:Ho; [|now rewrite !pregel_no_retry].
    destruct r as [v|]; [|now rewrite !pregel_ask_retry].
    destruct (String.eqb_spec v "retry") as [->|Hr];
      [now rewrite !pregel_retry|].
    now rewrite !pregel_retry_else.
  - now rewrite !pregel_retry_command.
  - now rewrite !pregel_end.
Qed.

Lemma resume_with_three v ck w :
  resume_with env v ck w = pregel env 3 (Some v) ck w.
Proof. unfold resume_with, recursion_limit. apply pregel_three. Qed.

Lemma start_three st w :
  start env st w = pregel env 3 None (mkCheckpoint st generate_command) w.
Proof. unfold start, recursion_limit. apply pregel_three. Qed.

Lemma pregel_three_settled r ck w : settled (pregel env 3 r ck w).
Proof.
  destruct ck as [st nd]. unfold settled. destruct nd.
  - rewrite pregel_generate. cbn. auto.
  - destruct r as [v|]; [|rewrite pregel_ask_approval; cbn; auto].
    destruct (String.eqb_spec v "approve") as [->|Ha].
    { rewrite pregel_approve. cbv zeta.
      destruct (PyStr.truthy _ && _) eqn:Ho; cbn; auto. }
    destruct (String.eqb_spec v "reject") as [->|Hr].
    { rewrite pregel_reject. cbn. auto. }
    rewrite pregel_approval_else by assumption. reflexivity.
  - rewrite pregel_execute. cbv zeta.
    destruct (retry_offered _) eqn:Ho; cbn; auto.
  - destruct (retry_offered st) eqn:Ho;
      [|rewrite pregel_no_retry by assumption; reflexivity].
    destruct r as [v|]; [|rewrite pregel_ask_retry by assumption; cbn; auto].
    destruct (String.eqb_spec v "retry") as [->|Hr].
    { rewrite pregel_retry by assumption. cbn. auto. }
    rewrite pregel_retry_else by assumption. reflexivity.
  - rewrite pregel_retry_command. cbn. auto.
  - rewrite pregel_end. reflexivity.
Qed.

Lemma resume_with_settled v ck w : settled (resume_with env v ck w).
Proof. rewrite resume_with_three. apply pregel_three_settled. Qed.

Lemma start_settled st w : settled (start env st w).
Proof. rewrite start_three. apply pregel_three_settled. Qed.

(** A property kept by every step is kept by a whole call. *)
Lemma pregel_preserves (P : Checkpoint -> World -> Prop) :
  (forall r ck w ck' w',
      superstep env r ck w = Advanced ck' w' -> P ck w -> P ck' w') ->
  forall n r ck w, P ck w ->
    P (snd (fst (pregel env n r ck w))) (snd (pregel env n r ck w)).
Proof.
  intros Hstep. induction n as [|n IH]; intros r ck w HP.
  - cbn [pregel]. destruct (is_end (next ck)); exact HP.
  - cbn [pregel]. destruct (is_end (next ck)); [exact HP|].
    destruct (superstep env r ck w) as [v|ck1 w1] eqn:Hs; [exact HP|].
    apply IH. eapply Hstep; eauto.
Qed.

End RunLoop.

Section StepInvariants.

Variable env : Env.


Lemma superstep_executions r ck w ck' w' :
  superstep env r ck w = Advanced ck' w' ->
  executions_match ck w -> executions_match ck' w'.
Proof.
  destruct ck as [st nd]. unfold superstep, executions_match.
  cbn [next values]. intros Hstep [Hb He].
  destruct nd; cbn [run_node] in Hstep.
  - inversion Hstep; subst. cbn. auto.
  - unfold human_approval_node in Hstep. destruct r as [v|]; [|discriminate].
    destruct (String.eqb v "approve"); [|destruct (String.eqb v "reject")];
      inversion Hstep; subst; cbn; auto.
  - inversion Hstep; subst. cbn [values next edge executed].
    destruct (execute_shell_command_shape
                (subprocess_run env (List.length (executed w)))
                (generated_command st) default_timeout) as (o & e & Hx).
    unfold execute_command_node. rewrite Hx. cbn.
    rewrite length_app. cbn. split; [exact Hb|lia].
  - unfold check_result_node in Hstep.
    destruct (PyStr.truthy (command_error st)); cbn [andb] in Hstep.
    + destruct (retry_count st <? 3) eqn:Hlt.
      * destruct r as [v|]; [|discriminate]. apply Z.ltb_lt in Hlt.
        destruct (String.eqb v "retry"); inversion Hstep; subst; cbn;
          split; try lia; auto.
      * inversion Hstep; subst; cbn; auto.
    + inversion Hstep; subst; cbn; auto.
  - inversion Hstep; subst. cbn. auto.
  - inversion Hstep; subst. cbn. auto.
Qed.

Lemma first_approval_executions prompt :
  executions_match (snd (fst (first_approval env prompt)))
                   (snd (first_approval env prompt)).
Proof. rewrite first_approval_eq. unfold executions_match. cbn. lia. Qed.

Lemma decide_all_preserves (P : Checkpoint -> World -> Prop) :
  (forall r ck w ck' w',
      superstep env r ck w = Advanced ck' w' -> P ck w -> P ck' w') ->
  forall vs r, P (snd (fst r)) (snd r) ->
    P (snd (fst (decide_all env vs r))) (snd (decide_all env vs r)).
Proof.
  intros Hstep. induction vs as [|v vs IH]; intros r HP; [exact HP|].
  cbn [decide_all]. apply IH. unfold resume_with.
  now apply pregel_preserves.
Qed.


End StepInvariants.



(** X3: no command runs without an approval.  Starting a session runs
    nothing, and resuming a thread that stands at any node but
    [execute_command] with any value other than [approve] runs nothing. *)
Theorem no_execution_without_approval (env : Env) (prompt v : string)
    (ck : Checkpoint) (w : World) :
  v <> "approve" ->
  next ck <> execute_command ->
  executed (snd (resume_with env v ck w)) = executed w
  /\ executed (snd (start env (initial_state prompt) w)) = executed w.
Proof.
  intros Hv Hn. split.
  - rewrite resume_with_three. destruct ck as [st nd]. cbn [next] in Hn.
    destruct nd; try congruence.
    + now rewrite pregel_generate.
    + destruct (String.eqb_spec v "reject") as [->|Hr];
        [now rewrite pregel_reject|].
      now rewrite pregel_approval_else.
    + destruct (retry_offered st) eqn:Ho; [|now rewrite pregel_no_retry].
      destruct (String.eqb_spec v "retry") as [->|Hr];
        [now rewrite pregel_retry|].
      now rewrite pregel_retry_else.
    + now rewrite pregel_retry_command.
    + now rewrite pregel_end.
  - rewrite start_three. now rewrite pregel_generate.
Qed.

Lemma no_execution_without_approval_witness :
  let ck :=
    mkCheckpoint (after_generate env_failing (initial_state "list files") world0)
                 human_approval in
  executed (snd (resume_with env_failing "reject" ck (called_llm world0)))
  = executed (called_llm world0)
  /\ executed (snd (start env_failing (initial_state "list files")
                         (called_llm world0)))
     = executed (called_llm world0).
Proof.
  apply (no_execution_without_approval env_failing "list files" "reject");
    discriminate.
Defined.





(** X6: a session runs at most four commands, and never more than one
    command more than the retries it has accepted: after any list of
    decisions submitted to a session started from the initial state the
    number of executed commands is at most [retry_count] plus one. *)
Theorem executions_are_bounded (env : Env) (prompt : string) (vs : list string) :
  let r := decide_all env vs (first_approval env prompt) in
  (List.length (executed (snd r)) <= 4)%nat
  /\ retry_count (values (snd (fst r)))
     <= Z.of_nat (List.length (executed (snd r)))
     <= retry_count (values (snd (fst r))) + 1.
Proof.
  cbv zeta.
  pose proof (decide_all_preserves env executions_match
                (superstep_executions env) vs (first_approval env prompt)
                (first_approval_executions env prompt)) as [Hb Hm].
  destruct (next _) in Hm; lia.
Qed.



(** X8: [retry_count] only moves when a retry is accepted, and then by
    exactly one: a step either leaves it alone or is the step of
    [check_result] resumed with [retry], which goes to [retry_command]. *)
Theorem retry_count_moves_on_retry_only (env : Env) (r : option string)
    (ck : Checkpoint) (w : World) (ck' : Checkpoint) (w' : World) :
  superstep env r ck w = Advanced ck' w' ->
  retry_count (values ck') = retry_count (values ck)
  \/ (retry_count (values ck') = retry_count (values ck) + 1
      /\ r = Some "retry" /\ next ck = check_result
      /\ next ck' = retry_command
      /\ command_error (values ck) <> "").
Proof.
  destruct ck as [st nd]. unfold superstep. cbn [next values]. intros Hstep.
  destruct nd; cbn [run_node] in Hstep.
  - inversion Hstep; subst. left. reflexivity.
  - unfold human_approval_node in Hstep. destruct r as [v|]; [|discriminate].
    destruct (String.eqb v "approve"); [|destruct (String.eqb v "reject")];
      inversion Hstep; subst; left; reflexivity.
  - inversion Hstep; subst. left. cbn [values].
    destruct (execute_shell_command_shape
                (subprocess_run env (List.length (executed w)))
                (generated_command st) default_timeout) as (o & e & Hx).
    unfold execute_command_node. rewrite Hx. reflexivity.
  - unfold check_result_node in Hstep.
    destruct (command_error st) as [|a e] eqn:He; cbn [PyStr.truthy andb] in Hstep.
    + inversion Hstep; subst. left. reflexivity.
    + destruct (retry_count st <? 3).
      * destruct r as [v|]; [|discriminate].
        destruct (String.eqb_spec v "retry") as [->|Hv]; inversion Hstep; subst.
        -- right. cbn. repeat split. discriminate.
        -- left. reflexivity.
      * inversion Hstep; subst. left. reflexivity.
  - inversion Hstep; subst. left. reflexivity.
  - inversion Hstep; subst. left. reflexivity.
Qed.

Lemma retry_count_moves_on_retry_only_witness :
  let st :=
    mkState [] "list files" "ls /nonexistent" "" "ls: cannot access" true 1 in
  retry_count (values (mkCheckpoint (apply_update
      (mkUpdate None None None None None (Some 2)) st) retry_command))
  = retry_count st
  \/ (retry_count (values (mkCheckpoint (apply_update
        (mkUpdate None None None None None (Some 2)) st) retry_command))
      = retry_count st + 1
      /\ Some "retry" = Some "retry"
      /\ next (mkCheckpoint st check_result) = check_result
      /\ next (mkCheckpoint (apply_update
           (mkUpdate None None None None None (Some 2)) st) retry_command)
         = retry_command
      /\ command_error st <> "").
Proof.
  exact (retry_count_moves_on_retry_only env_failing (Some "retry")
           (mkCheckpoint
              (mkState [] "list files" "ls /nonexistent" "" "ls: cannot access"
                       true 1) check_result)
           world0 _ world0 eq_refl).
Defined.

(** ** More on cleaning *)

Lemma split_cons sep s : exists h t, PyStr.split sep s = h :: t.
Proof.
  destruct s as [|c s]; cbn; [eauto|].
  destruct (Ascii.eqb c sep); [eauto|].
  destruct (PyStr.split sep s); eauto.
Qed.

Lemma split_no_newline s :
  no_newline s = true -> PyStr.split PyStr.newline s = [s].
Proof.
  induction s as [|c s IH]; cbn [PyStr.split no_newline]; [reflexivity|].
  intros H. apply andb_true_iff in H as [Hc Hs].
  apply negb_true_iff in Hc. rewrite Hc, (IH Hs). reflexivity.
Qed.

Lemma split_first_line a b :
  no_newline a = true ->
  PyStr.split PyStr.newline (a ++ String PyStr.newline b)
  = a :: PyStr.split PyStr.newline b.
Proof.
  induction a as [|c a IH].
  - intros _. change ("" ++ String PyStr.newline b) with (String PyStr.newline b).
    cbn [PyStr.split]. now rewrite Ascii.eqb_refl.
  - change (String c a ++ String PyStr.newline b)
      with (String c (a ++ String PyStr.newline b)).
    cbn [PyStr.split no_newline].
    intros H. apply andb_true_iff in H as [Hc Hs].
    apply negb_true_iff in Hc. rewrite Hc, (IH Hs). reflexivity.
Qed.

Lemma no_newline_app a b :
  no_newline a = true -> no_newline b = true -> no_newline (a ++ b) = true.
Proof.
  induction a as [|c a IH]; [auto|].
  change (String c a ++ b) with (String c (a ++ b)). cbn [no_newline].
  intros H Hb. apply andb_true_iff in H as [Hc Hs].
  rewrite Hc. cbn [andb]. auto.
Qed.

Lemma clean_as_two_halves command :
  clean_command_output command
  = PyStr.strip
      (drop_closing_fence
         (if PyStr.startswith command fence then
            match PyStr.split PyStr.newline command with
            | _ :: l1 :: _ => l1
            | _ => command
            end
          else command)).
Proof. reflexivity. Qed.

(** X9: the cleaned command never has surrounding whitespace: trimming
    it again changes nothing. *)
Theorem cleaned_command_is_trimmed (s : string) :
  PyStr.strip (clean_command_output s) = clean_command_output s
  /\ PyStr.lstrip (clean_command_output s) = clean_command_output s
  /\ PyStr.rstrip (clean_command_output s) = clean_command_output s.
Proof.
  destruct (clean_is_stripped s) as [x ->]. split; [apply strip_idem|].
  unfold PyStr.strip. split.
  - apply lstrip_idem.
  - now rewrite rstrip_lstrip, rstrip_idem.
Qed.

(** X10: the cleaning written out in [main.py] and the one of
    [utils.py] agree up to a last trim: trimming what [main.py] keeps
    gives what [clean_command_output] gives on the trimmed answer.  The
    command of [main.py] can keep surrounding whitespace. *)
Theorem inline_clean_agrees_up_to_trim (s : string) :
  PyStr.strip (inline_clean s) = clean_command_output (PyStr.strip s)
  /\ inline_clean ("```" ++ nl ++ " ls " ++ nl ++ "```") = " ls ".
Proof. split; reflexivity. Qed.

(** X11: of a fenced block only the first line after the opening fence
    line is kept: when the text opens with the fence marker and a tag
    without a line break, the cleaned command is that first line, less
    one closing fence marker if it ends with one, trimmed; every later
    line is dropped. *)
Theorem fenced_block_keeps_first_line (tag body : string) :
  no_newline tag = true ->
  clean_command_output (fence ++ tag ++ nl ++ body)
  = PyStr.strip
      (drop_closing_fence (hd "" (PyStr.split PyStr.newline body))).
Proof.
  intros Htag. rewrite clean_as_two_halves.
  assert (Hsplit : PyStr.split PyStr.newline (fence ++ tag ++ nl ++ body)
                   = (fence ++ tag) :: PyStr.split PyStr.newline body).
  { replace (fence ++ tag ++ nl ++ body)
      with ((fence ++ tag) ++ String PyStr.newline body).
    - apply split_first_line. now apply no_newline_app.
    - cbn. reflexivity. }
  rewrite Hsplit.
  assert (Hstart : PyStr.startswith (fence ++ tag ++ nl ++ body) fence = true).
  { unfold PyStr.startswith, fence.
    change ("```" ++ tag ++ nl ++ body)
      with (String "`" (String "`" (String "`" (tag ++ nl ++ body)))).
    cbn [String.prefix]. repeat (destruct (ascii_dec _ _); [|congruence]).
    now destruct (tag ++ nl ++ body). }
  rewrite Hstart.
  destruct (split_cons PyStr.newline body) as (h & t & ->).
  reflexivity.
Qed.

Lemma fenced_block_keeps_first_line_witness :
  clean_command_output
    (fence ++ "bash" ++ nl ++ ("ls -la" ++ nl ++ "rm -rf tmp" ++ nl ++ "```"))
  = PyStr.strip
      (drop_closing_fence
         (hd "" (PyStr.split PyStr.newline
                   ("ls -la" ++ nl ++ "rm -rf tmp" ++ nl ++ "```")))).
Proof.
  apply (fenced_block_keeps_first_line "bash"). reflexivity.
Defined.

(** X12: an answer on a single line keeps its opening fence: without a
    line break in the text only one closing marker is removed, whether
    or not the text opens with the marker. *)
Theorem one_line_answer_keeps_opening_fence (s : string) :
  no_newline s = true ->
  clean_command_output s = PyStr.strip (drop_closing_fence s).
Proof.
  intros Hs. rewrite clean_as_two_halves, (split_no_newline s Hs).
  now destruct (PyStr.startswith s fence).
Qed.

Lemma one_line_answer_keeps_opening_fence_witness :
  clean_command_output "```ls -la```"
  = PyStr.strip (drop_closing_fence "```ls -la```").
Proof.
  apply (one_line_answer_keeps_opening_fence "```ls -la```"). reflexivity.
Defined.

(** ** The command-line interrupt loop *)

Section CommandLine.

Variable env : Env.

Lemma option_keys_approval v :
  v ∈ ["approve"; "reject"; "cancel"] -> v ∈ option_keys.
Proof. unfold option_keys. rewrite !elem_of_cons. tauto. Qed.

Lemma option_keys_retry v :
  v ∈ ["retry"; "stop"] -> v ∈ option_keys.
Proof. unfold option_keys. rewrite !elem_of_cons. tauto. Qed.

(** The loop on a thread suspended on the approval request. *)
Lemma handle_user_interrupt_approval line rest st w sub :
  handle_user_interrupt env (line :: rest)
    (Suspended [ask_approval st], mkCheckpoint st human_approval, w) sub
  = if bool_decide (PyStr.lower (PyStr.strip line)
                    ∈ ["approve"; "reject"; "cancel"])
    then handle_user_interrupt env rest
           (resume_with env (PyStr.lower (PyStr.strip line))
              (mkCheckpoint st human_approval) w)
           (sub ++ [PyStr.lower (PyStr.strip line)])
    else handle_user_interrupt env rest
           (Suspended [ask_approval st], mkCheckpoint st human_approval, w) sub.
Proof. reflexivity. Qed.

(** The loop on a thread suspended on the retry request. *)
Lemma handle_user_interrupt_retry line rest st w sub :
  handle_user_interrupt env (line :: rest)
    (Suspended [ask_retry st], mkCheckpoint st check_result, w) sub
  = if bool_decide (PyStr.lower (PyStr.strip line) ∈ ["retry"; "stop"])
    then handle_user_interrupt env rest
           (resume_with env (PyStr.lower (PyStr.strip line))
              (mkCheckpoint st check_result) w)
           (sub ++ [PyStr.lower (PyStr.strip line)])
    else handle_user_interrupt env rest
           (Suspended [ask_retry st], mkCheckpoint st check_result, w) sub.
Proof. reflexivity. Qed.

Lemma handle_user_interrupt_submitted lines : forall r sub,
  settled r ->
  Forall (fun v => v ∈ option_keys) sub ->
  Forall (fun v => v ∈ option_keys)
         (cli_submitted (handle_user_interrupt env lines r sub)).
Proof.
  induction lines as [|line rest IH]; intros [[o [st nd]] w] sub Hs Hsub.
  - unfold settled in Hs. cbn [fst snd] in Hs.
    destruct o as [vs| |]; [|exact Hsub|contradiction].
    destruct Hs as [[_ ->]|[_ [-> _]]]; exact Hsub.
  - pose proof Hs as Hs'. unfold settled in Hs. cbn [fst snd next values] in Hs.
    destruct o as [vs| |]; [|exact Hsub|contradiction].
    destruct Hs as [[-> ->]|[-> [-> _]]].
    + rewrite handle_user_interrupt_approval.
      case_bool_decide as Hin.
      * apply IH; [apply resume_with_settled|].
        apply Forall_app. split; [exact Hsub|].
        apply Forall_singleton. apply option_keys_approval. exact Hin.
      * apply IH; [exact Hs'|exact Hsub].
    + rewrite handle_user_interrupt_retry.
      case_bool_decide as Hin.
      * apply IH; [apply resume_with_settled|].
        apply Forall_app. split; [exact Hsub|].
        apply Forall_singleton. apply option_keys_retry. exact Hin.
      * apply IH; [exact Hs'|exact Hsub].
Qed.


End CommandLine.

(** X13: the command-line loop only ever resumes the graph with one of
    the option keys: whatever the user types, every value submitted
    during a request is [approve], [reject], [cancel], [retry] or
    [stop]. *)
Theorem cli_submits_only_option_keys (env : Env) (user_input : string)
    (lines : list string) :
  Forall (fun v => v ∈ option_keys)
         (cli_submitted (cli_request env user_input lines)).
Proof.
  unfold cli_request. apply handle_user_interrupt_submitted.
  - apply start_settled.
  - constructor.
Qed.


(** X15: an answer that is not among the options of the pending request
    is asked again and changes nothing: with such a line first the loop
    does what it does without it.  The answer is compared after
    trimming and lower-casing. *)
Theorem cli_refuses_unlisted_answer (env : Env) (line : string)
    (rest : list string) (st : AgentState) (w : World) (sub : list string) :
  (PyStr.lower (PyStr.strip line) ∉ ["approve"; "reject"; "cancel"] ->
   handle_user_interrupt env (line :: rest)
     (Suspended [ask_approval st], mkCheckpoint st human_approval, w) sub
   = handle_user_interrupt env rest
       (Suspended [ask_approval st], mkCheckpoint st human_approval, w) sub)
  /\ (PyStr.lower (PyStr.strip line) ∉ ["retry"; "stop"] ->
      handle_user_interrupt env (line :: rest)
        (Suspended [ask_retry st], mkCheckpoint st check_result, w) sub
      = handle_user_interrupt env rest
          (Suspended [ask_retry st], mkCheckpoint st check_result, w) sub).
Proof.
  split; intros Hout.
  - rewrite handle_user_interrupt_approval. now rewrite bool_decide_eq_false_2.
  - rewrite handle_user_interrupt_retry. now rewrite bool_decide_eq_false_2.
Qed.

Lemma cli_refuses_unlisted_answer_witness :
  let st := after_generate env_failing (initial_state "list files") world0 in
  handle_user_interrupt env_failing ["yes"; " Approve "; "STOP"]
    (Suspended [ask_approval st], mkCheckpoint st human_approval, world0) []
  = handle_user_interrupt env_failing [" Approve "; "STOP"]
      (Suspended [ask_approval st], mkCheckpoint st human_approval, world0) []
  /\ handle_user_interrupt env_failing ["cancel"; "stop"]
       (Suspended [ask_retry st], mkCheckpoint st check_result, world0) []
     = handle_user_interrupt env_failing ["stop"]
         (Suspended [ask_retry st], mkCheckpoint st check_result, world0) [].
Proof.
  cbv zeta. split.
  - apply (proj1 (cli_refuses_unlisted_answer env_failing "yes"
                    [" Approve "; "STOP"] _ world0 [])).
    rewrite !elem_of_cons, elem_of_nil. intros [H|[H|[H|H]]];
      vm_compute in H; try discriminate; exact H.
  - apply (proj2 (cli_refuses_unlisted_answer env_failing "cancel"
                    ["stop"] _ world0 [])).
    rewrite !elem_of_cons, elem_of_nil. intros [H|[H|H]];
      vm_compute in H; try discriminate; exact H.
Defined.

Example cli_normalises_answers :
  let run := cli_request env_failing "list files" ["yes"; " Approve "; "STOP"; "x"] in
  cli_submitted run = ["approve"; "stop"]
  /\ cli_end run = CliReturn /\ cli_unread run = ["x"]
  /\ executed (snd (cli_result run)) = ["ls /nonexistent"].
Proof. vm_compute. repeat split. Qed.

(** ** The server: one client at a time *)

Section ServerEffects.

Variable env : Env.

Lemma quiet_refl a sv : quiet_for_others a sv sv.
Proof.
  unfold quiet_for_others. repeat split; auto.
  exists []. split; [now rewrite app_nil_r|constructor].
Qed.

Lemma quiet_trans a sv1 sv2 sv3 :
  quiet_for_others a sv1 sv2 -> quiet_for_others a sv2 sv3 ->
  quiet_for_others a sv1 sv3.
Proof.
  intros (Hc & Hm & Hw & Hu & Hs & l & Hl & Hf)
         (Hc' & Hm' & Hw' & Hu' & Hs' & l' & Hl' & Hf').
  unfold quiet_for_others. repeat split; try congruence.
  - intros b Hb. rewrite Hs' by exact Hb. now apply Hs.
  - exists (l ++ l')%list. split.
    + rewrite Hl', Hl. now rewrite app_assoc.
    + apply Forall_app. auto.
Qed.

Lemma quiet_send a t c kw sv : quiet_for_others a sv (send_message a t c kw sv).
Proof.
  unfold send_message. destruct (decide (a ∈ clients sv)); [|apply quiet_refl].
  unfold quiet_for_others. cbn. repeat split; auto.
  eexists. split; [reflexivity|]. now apply Forall_singleton.
Qed.

Lemma quiet_alter a f sv : quiet_for_others a sv (set_sessions (alter f a) sv).
Proof.
  unfold quiet_for_others. cbn. repeat split; auto.
  - intros b Hb. now rewrite lookup_alter_ne.
  - exists []. split; [now rewrite app_nil_r|constructor].
Qed.

Lemma quiet_delete a sv : quiet_for_others a sv (set_sessions (delete a) sv).
Proof.
  unfold quiet_for_others. cbn. repeat split; auto.
  - intros b Hb. now rewrite lookup_delete_ne.
  - exists []. split; [now rewrite app_nil_r|constructor].
Qed.

Lemma quiet_insert a s sv :
  quiet_for_others a sv (set_sessions (insert a s) sv).
Proof.
  unfold quiet_for_others. cbn. repeat split; auto.
  - intros b Hb. now rewrite lookup_insert_ne.
  - exists []. split; [now rewrite app_nil_r|constructor].
Qed.

Lemma quiet_handle_one_interrupt a cfg v sv :
  quiet_for_others a sv (handle_one_interrupt a cfg v sv).
Proof.
  unfold handle_one_interrupt.
  destruct (payload_has "command" v);
    [|destruct (payload_has "error" v); [|apply quiet_refl]];
    (eapply quiet_trans; [apply quiet_alter|apply quiet_send]).
Qed.

Lemma quiet_handle_interrupt a cfg vs : forall sv,
  quiet_for_others a sv (handle_interrupt a vs cfg sv).
Proof.
  unfold handle_interrupt.
  induction vs as [|v vs IH]; intros sv; [apply quiet_refl|].
  cbn [fold_left]. eapply quiet_trans; [apply quiet_handle_one_interrupt|apply IH].
Qed.

Lemma quiet_send_command_output a st sv :
  quiet_for_others a sv (send_command_output a st sv).
Proof.
  unfold send_command_output.
  destruct (PyStr.truthy (command_error st)); apply quiet_send.
Qed.

Lemma quiet_continue a o cfg sv :
  quiet_for_others a sv (continue_after_response a o cfg sv).
Proof.
  unfold continue_after_response.
  destruct o as [[|v vs]| |].
  - destruct (memory sv !! cfg); [|apply quiet_refl].
    eapply quiet_trans; [apply quiet_send_command_output|apply quiet_delete].
  - apply quiet_handle_interrupt.
  - destruct (memory sv !! cfg); [|apply quiet_refl].
    eapply quiet_trans; [apply quiet_send_command_output|apply quiet_delete].
  - apply quiet_refl.
Qed.

Lemma quiet_report a sv : quiet_for_others a sv (report_exception a sv).
Proof. apply quiet_send. Qed.

End ServerEffects.

Section ServerHandlers.

Variable env : Env.

Lemma touches_intro a ths sv sv1 sv' :
  clients sv1 = clients sv ->
  (forall b, b <> a -> active_sessions sv1 !! b = active_sessions sv !! b) ->
  sent sv1 = sent sv ->
  (forall t, is_Some (memory sv !! t) -> is_Some (memory sv1 !! t)) ->
  (forall t, t ∉ ths -> memory sv1 !! t = memory sv !! t) ->
  quiet_for_others a sv1 sv' ->
  touches_only a ths sv sv'.
Proof.
  intros Hc Hs Hsent Hm Ho (Hc' & Hm' & _ & _ & Hs' & l & Hl & Hf).
  unfold touches_only. repeat split.
  - congruence.
  - intros b Hb. rewrite Hs' by exact Hb. now apply Hs.
  - exists l. split; [now rewrite Hl, Hsent|exact Hf].
  - intros t Ht. rewrite Hm'. now apply Hm.
  - intros t Ht. rewrite Hm'. now apply Ho.
Qed.

Lemma touches_of_quiet a ths sv sv' :
  quiet_for_others a sv sv' -> touches_only a ths sv sv'.
Proof. intros H. eapply touches_intro; eauto. Qed.

Lemma invoke_writes_thread arg tid mem w o mem' w' :
  invoke env arg tid mem w = Some (o, mem', w') ->
  exists ck, mem' = <[tid := ck]> mem.
Proof.
  unfold invoke. destruct arg as [input|v].
  - destruct (start env _ w) as [[o1 ck1] w1]. intros H. inversion H. eauto.
  - destruct (mem !! tid) as [ck0|]; [|discriminate].
    destruct (resume_with env v ck0 w) as [[o1 ck1] w1].
    intros H. inversion H. eauto.
Qed.

Lemma insert_keeps tid (ck : Checkpoint) (mem : gmap string Checkpoint) t :
  is_Some (mem !! t) -> is_Some (<[tid := ck]> mem !! t).
Proof.
  intros H. destruct (decide (tid = t)) as [->|Hne].
  - rewrite lookup_insert_eq. eauto.
  - now rewrite lookup_insert_ne.
Qed.

Lemma touches_resume_session a response session sv :
  touches_only a [config session] sv (resume_session env a response session sv).
Proof.
  unfold resume_session.
  destruct (invoke env (ResumeCommand response) (config session)
                   (memory sv) (world sv)) as [[[o mem] w]|] eqn:Hi.
  - destruct (invoke_writes_thread _ _ _ _ _ _ _ Hi) as [ck ->].
    assert (Hgen : forall sv',
               quiet_for_others a
                 (set_sessions
                    (alter (fun s => mkSession (config s) false None) a)
                    (set_graph (<[config session := ck]> (memory sv)) w sv)) sv'
               -> touches_only a [config session] sv sv').
    { intros sv' Hq.
      eapply (touches_intro a _ sv
                (set_graph (<[config session := ck]> (memory sv)) w sv)).
      - reflexivity.
      - reflexivity.
      - reflexivity.
      - intros t Ht. cbn. now apply insert_keeps.
      - intros t Ht. cbn. apply lookup_insert_ne.
        intros Heq. apply Ht. subst t. apply list_elem_of_here.
      - eapply quiet_trans; [apply quiet_alter|exact Hq]. }
    destruct o as [vs| |].
    + apply Hgen. apply quiet_continue.
    + apply Hgen. apply quiet_continue.
    + eapply (touches_intro a _ sv
                (set_graph (<[config session := ck]> (memory sv)) w sv)).
      * reflexivity.
      * reflexivity.
      * reflexivity.
      * intros t Ht. cbn. now apply insert_keeps.
      * intros t Ht. cbn. apply lookup_insert_ne.
        intros Heq. apply Ht. subst t. apply list_elem_of_here.
      * apply quiet_report.
  - apply touches_of_quiet. apply quiet_report.
Qed.

Lemma touches_weaken a ths ths' sv sv' :
  (forall t, t ∈ ths -> t ∈ ths') ->
  touches_only a ths sv sv' -> touches_only a ths' sv sv'.
Proof.
  intros Hsub (Hc & Hs & Hl & Hm & Ho). unfold touches_only.
  split; [exact Hc|]. split; [exact Hs|]. split; [exact Hl|].
  split; [exact Hm|]. intros t Ht. apply Ho. intros Hin. apply Ht. auto.
Qed.

Lemma touches_approval a b sv :
  touches_only a (threads_of env a sv) sv (handle_approval_response env a b sv).
Proof.
  unfold handle_approval_response, threads_of.
  destruct (active_sessions sv !! a) as [s|];
    [|apply touches_of_quiet, quiet_send].
  destruct (negb _ || negb _); [apply touches_of_quiet, quiet_send|].
  eapply touches_weaken; [|apply touches_resume_session].
  intros t Ht. now apply list_elem_of_further.
Qed.

Lemma touches_retry a b sv :
  touches_only a (threads_of env a sv) sv (handle_retry_response env a b sv).
Proof.
  unfold handle_retry_response, threads_of.
  destruct (active_sessions sv !! a) as [s|];
    [|apply touches_of_quiet, quiet_send].
  destruct (negb _ || negb _); [apply touches_of_quiet, quiet_send|].
  eapply touches_weaken; [|apply touches_resume_session].
  intros t Ht. now apply list_elem_of_further.
Qed.

Lemma touches_start a prompt sv :
  touches_only a (threads_of env a sv) sv (start_agent_session env a prompt sv).
Proof.
  unfold start_agent_session, run_agent_graph, threads_of.
  set (cfg := "session_" ++ a ++ "_" ++ uuid4 env (uuid_calls sv)).
  set (sv1 := mkServer _ _ _ _ _ _).
  assert (Hsv1 : forall mem w sv',
             (forall t, is_Some (memory sv !! t) -> is_Some (mem !! t)) ->
             (forall t, t <> cfg -> mem !! t = memory sv !! t) ->
             quiet_for_others a (set_graph mem w sv1) sv' ->
             touches_only a
               (cfg :: match active_sessions sv !! a with
                       | Some session => [config session]
                       | None => []
                       end) sv sv').
  { intros mem w sv' Hk Ho Hq.
    eapply (touches_intro a _ sv (set_graph mem w sv1)).
    - reflexivity.
    - intros b Hb. cbn. now rewrite lookup_insert_ne.
    - reflexivity.
    - exact Hk.
    - intros t Ht. cbn. apply Ho. intros Heq. apply Ht. subst t.
      apply list_elem_of_here.
    - exact Hq. }
  change (memory sv1) with (memory sv). change (world sv1) with (world sv).
  destruct (invoke env (NewInput (initial_state prompt)) cfg (memory sv) (world sv))
    as [[[o mem] w]|] eqn:Hi.
  - destruct (invoke_writes_thread _ _ _ _ _ _ _ Hi) as [ck ->].
    assert (Hk : forall t, is_Some (memory sv !! t) ->
                           is_Some (<[cfg := ck]> (memory sv) !! t))
      by (intros t; apply insert_keeps).
    assert (Ho : forall t, t <> cfg ->
                           <[cfg := ck]> (memory sv) !! t = memory sv !! t)
      by (intros t Ht; now apply lookup_insert_ne).
    destruct o as [vs| |]; apply (Hsv1 _ w _ Hk Ho).
    + apply quiet_continue.
    + apply quiet_continue.
    + eapply quiet_trans; [apply quiet_report|apply quiet_delete].
  - apply (Hsv1 (memory sv) (world sv)); auto.
    change (set_graph (memory sv) (world sv) sv1) with sv1.
    eapply quiet_trans; [apply quiet_report|apply quiet_delete].
Qed.

Lemma touches_frame a f sv :
  touches_only a (threads_of env a sv) sv (handle_frame env a f sv).
Proof.
  unfold handle_frame, handle_client_message.
  destruct f as [m|]; [|apply touches_of_quiet, quiet_send].
  repeat case_bool_decide.
  - apply touches_start.
  - apply touches_approval.
  - apply touches_retry.
  - apply touches_of_quiet, quiet_send.
Qed.

End ServerHandlers.


Section ServerScenarios.

Variable env : Env.



Lemma send_message_connected a t c kw cl ss mem w u snt :
  a ∈ cl ->
  send_message a t c kw (mkServer cl ss mem w u snt)
  = mkServer cl ss mem w u (snt ++ [(a, mkOut t c kw)]).
Proof.
  intros Ha. unfold send_message. cbn [clients].
  now rewrite decide_True by exact Ha.
Qed.





End ServerScenarios.





(** ** A whole connection *)

Section Connection.

Variable env : Env.

Lemma serves_of_touches a ths sv sv' :
  touches_only a ths sv sv' -> serves_only a sv sv'.
Proof. intros (Hc & Hs & Hl & Hm & _). unfold serves_only. auto. Qed.

Lemma serves_refl a sv : serves_only a sv sv.
Proof.
  unfold serves_only. repeat split; auto.
  exists []. split; [now rewrite app_nil_r|constructor].
Qed.

Lemma serves_trans a sv1 sv2 sv3 :
  serves_only a sv1 sv2 -> serves_only a sv2 sv3 -> serves_only a sv1 sv3.
Proof.
  intros (Hc & Hs & (l & Hl & Hf) & Hm) (Hc' & Hs' & (l' & Hl' & Hf') & Hm').
  unfold serves_only. split; [congruence|]. split; [|split].
  - intros b Hb. rewrite Hs' by exact Hb. now apply Hs.
  - exists (l ++ l')%list. split.
    + rewrite Hl', Hl. now rewrite app_assoc.
    + apply Forall_app. auto.
  - auto.
Qed.

Lemma serves_frames a frames : forall sv,
  serves_only a sv
    (fold_left (fun sv f => handle_frame env a f sv) frames sv).
Proof.
  induction frames as [|f frames IH]; intros sv; [apply serves_refl|].
  cbn [fold_left]. eapply serves_trans; [|apply IH].
  eapply serves_of_touches. apply touches_frame.
Qed.

End Connection.

Lemma register_then_unregister (a : string) (cl : gset string) :
  a ∈ ({[a]} ∪ cl : gset string) /\ ({[a]} ∪ cl) ∖ {[a]} = cl ∖ {[a]}.
Proof.
  split.
  - apply elem_of_union_l. now apply elem_of_singleton.
  - apply set_eq. intros x.
    rewrite !elem_of_difference, elem_of_union, elem_of_singleton. tauto.
Qed.

(** X21: a connection leaves nothing behind but its checkpoints: after
    [handle_websocket] has handled any frames and the connection is
    closed, its client id is not registered, the session table is the
    one before without that id, every message sent during the connection
    went to that id, the first of them being the greeting, and no
    checkpoint has been removed. *)
Theorem closed_connection_leaves_no_session (env : Env) (frames : list Frame)
    (sv : AgentServer) :
  let a := next_client_id env sv in
  let sv' := handle_websocket env frames sv in
  clients sv' = clients sv ∖ {[a]}
  /\ active_sessions sv' = delete a (active_sessions sv)
  /\ (exists l, sent sv' = (sent sv ++ (a, welcome_message) :: l)%list
                /\ Forall (fun m => fst m = a) l)
  /\ (forall t, is_Some (memory sv !! t) -> is_Some (memory sv' !! t)).
Proof.
  cbv zeta. unfold handle_websocket, next_client_id.
  destruct sv as [cl ss mem w u snt].
  cbn [uuid_calls clients active_sessions memory world sent].
  set (a := uuid4 env u).
  unfold register_client, set_clients.
  cbn [uuid_calls clients active_sessions memory world sent].
  rewrite send_message_connected by apply register_then_unregister.
  set (sv3 := mkServer _ _ _ _ _ _).
  destruct (serves_frames env a frames sv3) as (Hc & Hs & (l & Hl & Hf) & Hm).
  set (svk := fold_left _ frames sv3) in *.
  assert (Hin : a ∈ clients svk) by (rewrite Hc; apply register_then_unregister).
  unfold unregister_client. rewrite decide_True by exact Hin.
  unfold set_sessions, set_clients.
  cbn [uuid_calls clients active_sessions memory world sent].
  split; [|split; [|split]].
  - rewrite Hc. apply register_then_unregister.
  - apply map_eq. intros b. destruct (decide (a = b)) as [<-|Hne].
    + now rewrite !lookup_delete_eq.
    + rewrite !lookup_delete_ne by exact Hne. now apply Hs.
  - exists l. split; [|exact Hf]. rewrite Hl. cbn. now rewrite <- app_assoc.
  - intros t Ht. apply Hm. exact Ht.
Qed.
